(** * ChaiScript bootstrap: POD helpers, string conversions and
      function-object utilities of [dispatchkit/bootstrap.hpp]

    A shallow embedding of the helper functions of namespace
    [chaiscript::bootstrap] and of the private static members of class
    [Bootstrap].  Functions that throw or mutate their first argument are
    written in a small state-and-exception monad; the numeric helpers are
    templates over the POD types the bootstrap registers ([double], [int],
    [size_t], [char], [boost::int64_t]). *)

From Stdlib Require Import ZArith QArith Bool Lia SpecFloat String.
From stdpp Require Import base option list strings gmap.

Local Set Warnings "-register-all".
Local Open Scope string_scope.
Local Open Scope Z_scope.

(** ** Exceptions and the computation monad *)

(** The exception classes thrown in bootstrap.hpp.  [bad_boxed_cast] and
    [runtime_error] carry their [what()] text, [arity_error] the pair
    (got, expected); [bad_lexical_cast] is Boost's conversion failure. *)
Inductive exception : Type :=
| bad_boxed_cast (what : string)
| arity_error (got expected : Z)
| runtime_error (what : string)
| bad_lexical_cast.

(** Result of running a function on a state [S]: it returns a value, it
    throws (the state reached so far is kept, as in C++), or its behaviour
    is undefined (a trap such as an integer division by zero, or a dangling
    handle). *)
Inductive outcome (S A : Type) : Type :=
| Returns (a : A) (s : S)
| Throws (e : exception) (s : S)
| Undefined.
Arguments Returns {S A} a s.
Arguments Throws {S A} e s.
Arguments Undefined {S A}.

Definition M (S A : Type) : Type := S -> outcome S A.

Definition ret {S A} (a : A) : M S A := fun s => Returns a s.

Definition bind {S A B} (m : M S A) (k : A -> M S B) : M S B :=
  fun s =>
    match m s with
    | Returns a s' => k a s'
    | Throws e s' => Throws e s'
    | Undefined => Undefined
    end.

Definition throw {S A} (e : exception) : M S A := fun s => Throws e s.
Definition undefined {S A} : M S A := fun _ => Undefined.
Definition get {S} : M S S := fun s => Returns s s.
Definition put {S} (s : S) : M S unit := fun _ => Returns tt s.

(** A partial primitive: [None] is undefined behaviour. *)
Definition defined {S A} (o : option A) : M S A :=
  match o with
  | Some a => ret a
  | None => undefined
  end.

Declare Scope cpp_scope.
Delimit Scope cpp_scope with cpp.
Notation "'let*' x ':=' m 'in' k" := (bind m (fun x => k))
  (at level 10, x name, m at level 100, k at level 200,
   format "'[v' 'let*'  x  ':='  m  'in' '/' k ']'") : cpp_scope.
Notation "m ';;' k" := (bind m (fun _ => k))
  (at level 100, k at level 200, right associativity) : cpp_scope.
Local Open Scope cpp_scope.

(** ** POD numeric types *)

(** [double] is IEEE 754 binary64, in the exact model of the standard
    library ([spec_float] with 53 bits of precision). *)
Definition double : Type := spec_float.
Definition prec : Z := 53.
Definition emax : Z := 1024.

(** The integer types that [Bootstrap::bootstrap] registers with
    [bootstrap_integer_type]. *)
Inductive integer_type : Type := t_int | t_size_t | t_char | t_int64_t.

(** The POD types of [bootstrap_pod_type]: the integer ones and [double]. *)
Inductive pod_type : Type :=
| Integer (t : integer_type)
| Double.

Definition bits (t : integer_type) : Z :=
  match t with
  | t_int => 32
  | t_size_t => 64
  | t_char => 8
  | t_int64_t => 64
  end.

Definition is_signed (t : integer_type) : bool :=
  match t with
  | t_size_t => false
  | _ => true
  end.

Definition min_value (t : integer_type) : Z :=
  if is_signed t then - 2 ^ (bits t - 1) else 0.

Definition max_value (t : integer_type) : Z :=
  if is_signed t then 2 ^ (bits t - 1) - 1 else 2 ^ bits t - 1.

Definition in_range (t : integer_type) (z : Z) : bool :=
  (min_value t <=? z) && (z <=? max_value t).

(** Reduction of a mathematical integer to the representable one that is
    congruent to it modulo 2^bits (two's complement for the signed types). *)
Definition wrap (t : integer_type) (z : Z) : Z :=
  if is_signed t
  then (z + 2 ^ (bits t - 1)) mod 2 ^ bits t - 2 ^ (bits t - 1)
  else z mod 2 ^ bits t.

(** The type in which the arithmetic on [t] is carried out after the
    integral promotions: [char] is promoted to [int]. *)
Definition promoted (t : integer_type) : integer_type :=
  match t with
  | t_char => t_int
  | _ => t
  end.

(** Values of a POD type: integers are kept as [Z], within range. *)
Definition value (P1 : pod_type) : Type :=
  match P1 with
  | Integer _ => Z
  | Double => double
  end.

(** Integer part of a double, toward zero; [None] for infinities and NaN. *)
Definition truncate (x : double) : option Z :=
  match x with
  | S754_zero _ => Some 0
  | S754_finite s m e => Some (cond_Zopp s (Z.shiftl (Z.pos m) e))
  | S754_infinity _ | S754_nan => None
  end.

(** [P1(r.i)]: conversion of a [boost::int64_t] to [P1].  To an integer
    type it wraps; to [double] it rounds to nearest. *)
Definition of_int64 (P1 : pod_type) (z : Z) : value P1 :=
  match P1 with
  | Integer t => wrap t z
  | Double => binary_normalize prec emax z 0 false
  end.

(** [P1(r.d)]: conversion of a [double] to [P1].  To an integer type it
    truncates toward zero, and is undefined when the integer part is not
    representable. *)
Definition of_double (P1 : pod_type) : double -> option (value P1) :=
  match P1 with
  | Integer t => fun x =>
      match truncate x with
      | Some z => if in_range t z then Some z else None
      | None => None
      end
  | Double => fun x => Some x
  end.

(** *** The built-in operators behind the compound assignments

    Integer [+], [-], [*] and [<<] wrap around; [/] and [%] are undefined
    on a zero divisor and when the quotient overflows the promoted type;
    the shifts are undefined when the count is negative or not less than
    the width of the promoted left operand. *)
Definition int_add (t : integer_type) (a b : Z) : option Z := Some (wrap t (a + b)).
Definition int_sub (t : integer_type) (a b : Z) : option Z := Some (wrap t (a - b)).
Definition int_mul (t : integer_type) (a b : Z) : option Z := Some (wrap t (a * b)).

Definition int_div (t : integer_type) (a b : Z) : option Z :=
  if b =? 0 then None
  else if in_range (promoted t) (Z.quot a b) then Some (wrap t (Z.quot a b))
  else None.

Definition int_rem (t : integer_type) (a b : Z) : option Z :=
  if b =? 0 then None
  else if in_range (promoted t) (Z.quot a b) then Some (wrap t (Z.rem a b))
  else None.

Definition int_and (t : integer_type) (a b : Z) : option Z := Some (wrap t (Z.land a b)).
Definition int_or (t : integer_type) (a b : Z) : option Z := Some (wrap t (Z.lor a b)).
Definition int_xor (t : integer_type) (a b : Z) : option Z := Some (wrap t (Z.lxor a b)).

Definition int_shl (t : integer_type) (a b : Z) : option Z :=
  if (0 <=? b) && (b <? bits (promoted t)) then Some (wrap t (Z.shiftl a b)) else None.

Definition int_shr (t : integer_type) (a b : Z) : option Z :=
  if (0 <=? b) && (b <? bits (promoted t)) then Some (wrap t (Z.shiftr a b)) else None.

Definition pod_add (P1 : pod_type) : value P1 -> value P1 -> option (value P1) :=
  match P1 with
  | Integer t => int_add t
  | Double => fun a b => Some (SFadd prec emax a b)
  end.

Definition pod_sub (P1 : pod_type) : value P1 -> value P1 -> option (value P1) :=
  match P1 with
  | Integer t => int_sub t
  | Double => fun a b => Some (SFsub prec emax a b)
  end.

Definition pod_mul (P1 : pod_type) : value P1 -> value P1 -> option (value P1) :=
  match P1 with
  | Integer t => int_mul t
  | Double => fun a b => Some (SFmul prec emax a b)
  end.

Definition pod_div (P1 : pod_type) : value P1 -> value P1 -> option (value P1) :=
  match P1 with
  | Integer t => int_div t
  | Double => fun a b => Some (SFdiv prec emax a b)
  end.

(** [p1 op= v] on the object [p1] refers to, which is the state; the
    result is the reference to [p1], read back here as its new value. *)
Definition compound_assign {A : Type} (op : A -> A -> option A) (v : A) : M A A :=
  let* p1 := get in
  let* r := defined (op p1 v) in
  put r;;
  ret r.

(** [p1 = v]. *)
Definition simple_assign {A : Type} (v : A) : M A A :=
  put v;;
  ret v.

(** ** Boxed_Numeric *)

(** [struct Boxed_Numeric] of boxed_numeric.hpp, as bootstrap.hpp reads it:
    the flag [isfloat], the [boost::int64_t] field [i] and the [double]
    field [d]. *)
Record Boxed_Numeric : Type := mk_Boxed_Numeric {
  isfloat : bool;
  i : Z;
  d : double
}.

(** ** namespace detail *)

Definition assign_pod (P1 : pod_type) (v : Boxed_Numeric) : M (value P1) (value P1) :=
  if isfloat v then
    let* x := defined (of_double P1 (d v)) in
    simple_assign x
  else
    simple_assign (of_int64 P1 (i v)).

Definition construct_pod (P1 : pod_type) (v : Boxed_Numeric) : option (value P1) :=
  if isfloat v then of_double P1 (d v) else Some (of_int64 P1 (i v)).

Definition assign_bitwise_and_pod (t : integer_type) (r : Boxed_Numeric) : M Z Z :=
  if negb (isfloat r) then
    compound_assign (int_and t) (of_int64 (Integer t) (i r))
  else
    throw (bad_boxed_cast "&= only valid for integer types").

Definition assign_xor_pod (t : integer_type) (r : Boxed_Numeric) : M Z Z :=
  if negb (isfloat r) then
    compound_assign (int_xor t) (of_int64 (Integer t) (i r))
  else
    throw (bad_boxed_cast "^= only valid for integer types").

Definition assign_bitwise_or_pod (t : integer_type) (r : Boxed_Numeric) : M Z Z :=
  if negb (isfloat r) then
    compound_assign (int_or t) (of_int64 (Integer t) (i r))
  else
    throw (bad_boxed_cast "&= only valid for integer types").

Definition assign_difference_pod (P1 : pod_type) (r : Boxed_Numeric) : M (value P1) (value P1) :=
  if isfloat r then
    let* x := defined (of_double P1 (d r)) in
    compound_assign (pod_sub P1) x
  else
    compound_assign (pod_sub P1) (of_int64 P1 (i r)).

Definition assign_left_shift_pod (t : integer_type) (r : Boxed_Numeric) : M Z Z :=
  if negb (isfloat r) then
    compound_assign (int_shl t) (of_int64 (Integer t) (i r))
  else
    throw (bad_boxed_cast "<<= only valid for integer types").

Definition assign_product_pod (P1 : pod_type) (r : Boxed_Numeric) : M (value P1) (value P1) :=
  if isfloat r then
    let* x := defined (of_double P1 (d r)) in
    compound_assign (pod_mul P1) x
  else
    compound_assign (pod_mul P1) (of_int64 P1 (i r)).

Definition assign_quotient_pod (P1 : pod_type) (r : Boxed_Numeric) : M (value P1) (value P1) :=
  if isfloat r then
    let* x := defined (of_double P1 (d r)) in
    compound_assign (pod_div P1) x
  else
    compound_assign (pod_div P1) (of_int64 P1 (i r)).

Definition assign_remainder_pod (t : integer_type) (r : Boxed_Numeric) : M Z Z :=
  if negb (isfloat r) then
    compound_assign (int_rem t) (of_int64 (Integer t) (i r))
  else
    throw (bad_boxed_cast "%= only valid for integer types").

Definition assign_right_shift_pod (t : integer_type) (r : Boxed_Numeric) : M Z Z :=
  if negb (isfloat r) then
    compound_assign (int_shr t) (of_int64 (Integer t) (i r))
  else
    throw (bad_boxed_cast ">>= only valid for integer types").

Definition assign_sum_pod (P1 : pod_type) (r : Boxed_Numeric) : M (value P1) (value P1) :=
  if isfloat r then
    let* x := defined (of_double P1 (d r)) in
    compound_assign (pod_add P1) x
  else
    compound_assign (pod_add P1) (of_int64 P1 (i r)).

(** *** Vocabulary of the claims on the numeric helpers *)

(** The integer-only operators' error: a [bad_boxed_cast] whose text is an
    operator followed by " only valid for integer types". *)
Definition integer_only_text (op : string) : string :=
  op ++ " only valid for integer types".

Definition integer_only_error (e : exception) : Prop :=
  exists op : string, e = bad_boxed_cast (integer_only_text op).

(** The error names the operator [op]. *)
Definition names_operator (op : string) (e : exception) : bool :=
  match e with
  | bad_boxed_cast what => String.eqb what (integer_only_text op)
  | _ => false
  end.

(** The promotion rule in the spec's words, for an integer target and a
    floating operand: the integer operand is converted to double, the
    operation is carried out in double, and the result goes back to the
    target. *)
Definition spec_float_wins (op : double -> double -> double) (t : integer_type)
    (r : Boxed_Numeric) : M Z Z :=
  let* p1 := get in
  let* x := defined (of_double (Integer t) (op (of_int64 Double p1) (d r))) in
  put x;;
  ret x.

(** The outcome of [p1 op= x] carried out in the target's type, where
    [operand] is the converted right-hand side ([None]: the conversion is
    undefined). *)
Definition applied_in_target {A : Type} (op : A -> A -> option A) (operand : option A)
    (p1 : A) : outcome A A :=
  match operand with
  | Some x =>
      match op p1 x with
      | Some y => Returns y y
      | None => Undefined
      end
  | None => Undefined
  end.

(** The number that a value denotes: a rational, an infinity, or none. *)
Inductive number : Type :=
| finite (q : Q)
| infinite (negative : bool)
| not_a_number.

Definition number_eqb (a b : number) : bool :=
  match a, b with
  | finite p, finite q => Qeq_bool p q
  | infinite s, infinite s' => Bool.eqb s s'
  | _, _ => false
  end.

Definition number_of_double (x : double) : number :=
  match x with
  | S754_zero _ => finite 0
  | S754_infinity s => infinite s
  | S754_nan => not_a_number
  | S754_finite s m e =>
      if 0 <=? e
      then finite (inject_Z (cond_Zopp s (Z.pos m) * 2 ^ e))
      else finite (Qmake (cond_Zopp s (Z.pos m)) (2 ^ Z.to_pos (- e)))
  end.

Definition number_of (P1 : pod_type) : value P1 -> number :=
  match P1 with
  | Integer _ => fun z => finite (inject_Z z)
  | Double => number_of_double
  end.

(** The number held by the active field of a Boxed_Numeric. *)
Definition active_number (v : Boxed_Numeric) : number :=
  if isfloat v then number_of_double (d v) else finite (inject_Z (i v)).

Definition is_integral (x : double) : bool :=
  match x with
  | S754_zero _ => true
  | S754_finite _ m e => (0 <=? e) || (Z.pos m mod 2 ^ (- e) =? 0)
  | _ => false
  end.

Definition is_nan (x : double) : bool :=
  match x with
  | S754_nan => true
  | _ => false
  end.

(** The active field of [v] converts to [P1] without change of value: an
    integer within the range of an integer [P1], or below 2^53 in magnitude
    for [double]; a double that is integral and within the range of an
    integer [P1], or any double but NaN for [double]. *)
Definition representable (P1 : pod_type) (v : Boxed_Numeric) : bool :=
  match P1 with
  | Integer t =>
      if isfloat v then
        is_integral (d v)
        && match truncate (d v) with
           | Some z => in_range t z
           | None => false
           end
      else in_range t (i v)
  | Double =>
      if isfloat v then negb (is_nan (d v)) else Z.abs (i v) <? 2 ^ 53
  end.

(** [operator==] on values of a POD type: integer equality, and the IEEE
    comparison on [double] (false whenever an operand is NaN). *)
Definition pod_eqb (P1 : pod_type) : value P1 -> value P1 -> bool :=
  match P1 with
  | Integer _ => Z.eqb
  | Double => SFeqb
  end.

(** ** String conversions *)

(** The two directions of [boost::lexical_cast] that bootstrap.hpp uses for
    a type [T]: [lexical_cast<std::string>(x)], and [lexical_cast<T>(s)],
    which is [None] when Boost throws [bad_lexical_cast]. *)
Class Lexical_Cast (T : Type) : Type := {
  lexical_cast_string : T -> string;
  lexical_cast_value : string -> option T
}.

Definition to_string {T : Type} `{Lexical_Cast T} (x : T) : string :=
  lexical_cast_string x.

Definition parse_string {S T : Type} `{Lexical_Cast T} (s : string) : M S T :=
  match lexical_cast_value s with
  | Some x => ret x
  | None => throw bad_lexical_cast
  end.

(** The round trip of the spec: [parse_string(to_string(x)) == x], with the
    [==] of the type. *)
Definition round_trips {T : Type} (L : Lexical_Cast T) (eqb : T -> T -> bool) (x : T) : Prop :=
  exists y : T,
    @parse_string unit T L (@to_string T L x) tt = Returns y tt /\ eqb y x = true.

(** ** Type_Info *)

Module Type_Info.

(** Modelled from the spec: the descriptor of a native type (type_info.hpp
    is not among the sources at hand): the identity of the bare type and
    the qualifier flags. *)
Record t : Type := mk {
  m_bare_type : string;
  m_is_const : bool;
  m_is_reference : bool;
  m_is_pointer : bool;
  m_is_void : bool;
  m_is_undef : bool
}.

Definition is_const (ti : t) : bool := m_is_const ti.
Definition is_undef (ti : t) : bool := m_is_undef ti.

(** Modelled from the spec: two descriptors are bare-equal iff identity and
    pointer-arity match, ignoring the const and reference qualifiers. *)
Definition bare_equal (a b : t) : bool :=
  String.eqb (m_bare_type a) (m_bare_type b)
  && Bool.eqb (m_is_pointer a) (m_is_pointer b).

(** The descriptor of a default-constructed Boxed_Value: no type bound. *)
Definition undef : t := mk EmptyString false false false false true.

(** [user_type<T>()] / [Get_Type_Info<T>::get()] of an object type named
    [name], const-qualified or not. *)
Definition of_type (name : string) (const : bool) : t :=
  mk name const false false false false.

End Type_Info.

(** ** Boxed_Value and Proxy_Function *)

(** A Boxed_Value is a handle on a shared [Data] cell: copies of a
    Boxed_Value alias the cell, and [assign] through one of them is seen
    through all. *)
Record Boxed_Value : Type := mk_Boxed_Value { m_data : positive }.

(** Modelled from the spec: the variants of the callable abstraction
    (proxy_functions.hpp is not among the sources at hand): Plain,
    Constructor, Bound, Dynamic with its optional guard, and OverloadSet.
    Function objects are immutable once built, so a shared pointer to one
    is the object itself. *)
Inductive Proxy_Function_Base : Type :=
| Plain (arity : Z) (param_types : list Type_Info.t)
| Constructor (param_types : list Type_Info.t)
| Bound_Function (f : Proxy_Function_Base) (args : list Boxed_Value)
| Dynamic_Proxy_Function (body : N) (arity : Z) (guard : option Proxy_Function_Base)
| OverloadSet (candidates : list Proxy_Function_Base).

(** [Dynamic_Proxy_Function::get_guard], null when there is no guard. *)
Definition Dynamic_get_guard (pf : Proxy_Function_Base) : option Proxy_Function_Base :=
  match pf with
  | Dynamic_Proxy_Function _ _ g => g
  | _ => None
  end.

(** [boost::dynamic_pointer_cast<const Dynamic_Proxy_Function>]: null unless
    the object is a Dynamic candidate. *)
Definition dynamic_pointer_cast_Dynamic (pf : Proxy_Function_Base) : option Proxy_Function_Base :=
  match pf with
  | Dynamic_Proxy_Function _ _ _ => Some pf
  | _ => None
  end.

(** Modelled from the spec: what a Boxed_Value holds (boxed_value.hpp is
    not among the sources at hand): the payload, its Type_Info and the
    ownership mode. *)
Inductive Object : Type :=
| obj_empty
| obj_bool (b : bool)
| obj_function (f : Proxy_Function_Base)
| obj_native (id : N).

Inductive ownership : Type := owned_copy | shared_reference | raw_pointer.

Record Data : Type := mk_Data {
  m_type_info : Type_Info.t;
  m_obj : Object;
  m_ownership : ownership
}.

(** The cells of all live Boxed_Values. *)
Abbreviation Store := (gmap positive Data).

(** [*bv.m_data]; a handle on no cell cannot exist in C++. *)
Definition deref (bv : Boxed_Value) : M Store Data :=
  fun σ =>
    match σ !! m_data bv with
    | Some x => Returns x σ
    | None => Undefined
    end.

(** [*bv.m_data = x]. *)
Definition store (bv : Boxed_Value) (x : Data) : M Store unit :=
  fun σ => Returns tt (<[m_data bv := x]> σ).

(** Construction of a Boxed_Value with a cell of its own. *)
Definition new_Boxed_Value (x : Data) : M Store Boxed_Value :=
  fun σ =>
    let l := fresh (dom σ) in
    Returns (mk_Boxed_Value l) (<[l := x]> σ).

(** Destruction of a temporary, the only holder of its cell. *)
Definition destroy (bv : Boxed_Value) : M Store unit :=
  fun σ => Returns tt (delete (m_data bv) σ).

(** [Boxed_Value(const boost::shared_ptr<Type> &)] for a function object:
    the descriptor is [Get_Type_Info<Type>::get()]. *)
Definition Data_of_shared_ptr (Type_ : Type_Info.t) (p : Proxy_Function_Base) : Data :=
  mk_Data Type_ (obj_function p) shared_reference.

(** [Boxed_Value(bool)]. *)
Definition Data_of_bool (b : bool) : Data :=
  mk_Data (Type_Info.of_type "bool" false) (obj_bool b) owned_copy.

(** [Get_Type_Info<Proxy_Function_Base>] and its const version. *)
Definition Proxy_Function_Type (const : bool) : Type_Info.t :=
  Type_Info.of_type "Proxy_Function_Base" const.

(** The [bad_boxed_cast] of a failed cast or assignment, with the default
    text of the class. *)
Definition type_mismatch : exception :=
  bad_boxed_cast "Cannot perform boxed_cast".

Module Boxed_Value_.

Definition get_type_info (bv : Boxed_Value) : M Store Type_Info.t :=
  let* x := deref bv in
  ret (m_type_info x).

Definition is_undef (bv : Boxed_Value) : M Store bool :=
  let* ti := get_type_info bv in
  ret (Type_Info.is_undef ti).

(** Modelled from the spec: [assign] succeeds only when the target is
    undefined or both values are bare-equal and the target is not const,
    and otherwise fails with a type-mismatch error; it rebinds the target's
    cell and returns the target. *)
Definition assign (lhs rhs : Boxed_Value) : M Store Boxed_Value :=
  let* l := deref lhs in
  let* r := deref rhs in
  if Type_Info.is_undef (m_type_info l)
     || (Type_Info.bare_equal (m_type_info l) (m_type_info r)
         && negb (Type_Info.is_const (m_type_info l)))
  then
    store lhs r;;
    ret lhs
  else
    throw type_mismatch.

End Boxed_Value_.

(** Modelled from the spec: [boxed_cast<Const_Proxy_Function>]: the value
    must resolve to a callable, otherwise the cast fails. *)
Definition boxed_cast_Const_Proxy_Function (bv : Boxed_Value) : M Store Proxy_Function_Base :=
  let* x := deref bv in
  match m_obj x with
  | obj_function f => ret f
  | _ => throw type_mismatch
  end.

(** [v[n]] on a [std::vector]; out of range it is undefined. *)
Definition at_index {S A : Type} (v : list A) (n : nat) : M S A :=
  defined (v !! n).

(** [static_cast<int>(v.size())]. *)
Definition size_as_int {A : Type} (v : list A) : Z :=
  wrap t_int (Z.of_nat (length v)).

Definition ptr_assign (Type_ : Type_Info.t) (lhs : Boxed_Value) (rhs : Proxy_Function_Base)
  : M Store Boxed_Value :=
  let* undef := Boxed_Value_.is_undef lhs in
  let* ti := Boxed_Value_.get_type_info lhs in
  if undef || (negb (Type_Info.is_const ti) && Type_Info.bare_equal ti Type_)
  then
    let* tmp := new_Boxed_Value (Data_of_shared_ptr Type_ rhs) in
    Boxed_Value_.assign lhs tmp;;
    destroy tmp;;
    ret lhs
  else
    throw (bad_boxed_cast "type mismatch in pointer assignment").

(** ** class Bootstrap *)

Module Bootstrap.

Section Dispatch.

(** [Proxy_Function_Base::call_match], the dry-run test of a candidate
    against an argument list; its body is not among the sources at hand, so
    it is a parameter. *)
Variable call_match : Proxy_Function_Base -> list Boxed_Value -> Store -> bool.

Definition unknown_assign (lhs rhs : Boxed_Value) : M Store Boxed_Value :=
  let* undef := Boxed_Value_.is_undef lhs in
  if undef then
    Boxed_Value_.assign lhs rhs
  else
    throw (bad_boxed_cast "boxed_value has a set type already").

Definition bind_function (params : list Boxed_Value) : M Store Boxed_Value :=
  if (length params <? 2)%nat then
    throw (arity_error (size_as_int params) 2)
  else
    let* p0 := at_index params 0 in
    let* f := boxed_cast_Const_Proxy_Function p0 in
    new_Boxed_Value
      (Data_of_shared_ptr (Proxy_Function_Type true) (Bound_Function f (drop 1 params))).

Definition call_exists (params : list Boxed_Value) : M Store Boxed_Value :=
  if (length params <? 1)%nat then
    throw (arity_error (size_as_int params) 1)
  else
    let* p0 := at_index params 0 in
    let* f := boxed_cast_Const_Proxy_Function p0 in
    let* σ := get in
    new_Boxed_Value (Data_of_bool (call_match f (drop 1 params) σ)).

Definition has_guard (t_pf : Proxy_Function_Base) : bool :=
  match dynamic_pointer_cast_Dynamic t_pf with
  | Some pf =>
      match Dynamic_get_guard pf with
      | Some _ => true
      | None => false
      end
  | None => false
  end.

Definition get_guard {S : Type} (t_pf : Proxy_Function_Base) : M S Proxy_Function_Base :=
  match dynamic_pointer_cast_Dynamic t_pf with
  | Some pf =>
      match Dynamic_get_guard pf with
      | Some g => ret g
      | None => throw (runtime_error "Function does not have a guard")
      end
  | None => throw (runtime_error "Function does not have a guard")
  end.

End Dispatch.

End Bootstrap.

(** The error of [get_guard] on a candidate without a guard. *)
Definition guard_absent : exception := runtime_error "Function does not have a guard".

(** ** Sample values *)

(** The doubles 0.5 and 1.5, and Boxed_Numerics in each mode. *)
Definition one_half : double := S754_finite false 4503599627370496 (-53).
Definition three_halves : double := S754_finite false 6755399441055744 (-52).
Definition floating (x : double) : Boxed_Numeric := mk_Boxed_Numeric true 0 x.
Definition integral (z : Z) : Boxed_Numeric := mk_Boxed_Numeric false z (S754_zero false).

(** Sample store: cell 1 holds a native function of two [int]s, cell 2 the
    boolean [true], cell 3 a non-const function variable, cell 4 nothing. *)
Definition int_type : Type_Info.t := Type_Info.of_type "int" false.
Definition sample_function : Proxy_Function_Base := Plain 2 [int_type; int_type].
Definition sample_guarded : Proxy_Function_Base :=
  Dynamic_Proxy_Function 7 1 (Some sample_function).
Definition undefined_Data : Data := mk_Data Type_Info.undef obj_empty owned_copy.
Definition cell (n : positive) : Boxed_Value := mk_Boxed_Value n.
Definition sample_store : Store :=
  <[4%positive := undefined_Data]>
    (<[3%positive := Data_of_shared_ptr (Proxy_Function_Type false) sample_guarded]>
       (<[2%positive := Data_of_bool true]>
          (<[1%positive := Data_of_shared_ptr (Proxy_Function_Type true) sample_function]> ∅))).

(** A dry run that accepts exactly one argument. *)
Definition unary_match (_ : Proxy_Function_Base) (args : list Boxed_Value) (_ : Store) : bool :=
  (length args =? 1)%nat.

(** ** Vocabulary of the further properties *)

(** What an integer helper may leave behind when run on a target holding
    [p1]: a returned reference that reads as the new value of the target,
    itself within the range of the type; or an exception with the target
    untouched. *)
Definition outcome_in_range (t : integer_type) (p1 : Z) (o : outcome Z Z) : Prop :=
  match o with
  | Returns x s => x = s /\ in_range t s = true
  | Throws _ s => s = p1
  | Undefined => True
  end.

(** The eleven helpers of namespace [detail] that act on a target, at an
    integer type. *)
Definition integer_helpers (t : integer_type) : list (Boxed_Numeric -> M Z Z) :=
  [assign_pod (Integer t); assign_sum_pod (Integer t); assign_difference_pod (Integer t);
   assign_product_pod (Integer t); assign_quotient_pod (Integer t);
   assign_bitwise_and_pod t; assign_xor_pod t; assign_bitwise_or_pod t;
   assign_left_shift_pod t; assign_remainder_pod t; assign_right_shift_pod t].

(** ** Boxed vectors *)

Section Boxed_vectors.

Context {A : Type}.

(** [const_var] of boxed_value.hpp, which boxes a const copy of an element;
    its body is not among the sources at hand, so the data it builds is a
    parameter. *)
Variable const_var : A -> Data.

(** The loop of [do_return_boxed_value_vector]:
    [vbv.push_back(const_var( *itr))] for each element, first to last. *)
Fixpoint push_back_all (v : list A) (vbv : list Boxed_Value) : M Store (list Boxed_Value) :=
  match v with
  | [] => ret vbv
  | x :: rest =>
      let* bv := new_Boxed_Value (const_var x) in
      push_back_all rest (vbv ++ [bv])%list
  end.

Definition do_return_boxed_value_vector (f : Proxy_Function_Base -> list A)
    (b : Proxy_Function_Base) : M Store (list Boxed_Value) :=
  let v := f b in
  push_back_all v [].

(** [boost::bind(&do_return_boxed_value_vector<Function>, f, _1)]. *)
Definition return_boxed_value_vector (f : Proxy_Function_Base -> list A)
  : Proxy_Function_Base -> M Store (list Boxed_Value) :=
  fun b => do_return_boxed_value_vector f b.

End Boxed_vectors.

(** Samples for the boxed vectors: the functions contained in a candidate
    (those of an overload set, the target of a bound function), boxed as
    const function values. *)
Definition sample_contained (pf : Proxy_Function_Base) : list Proxy_Function_Base :=
  match pf with
  | OverloadSet candidates => candidates
  | Bound_Function f _ => [f]
  | _ => []
  end.

Definition sample_const_var (f : Proxy_Function_Base) : Data :=
  Data_of_shared_ptr (Proxy_Function_Type true) f.

(** * Properties *)

(** ** Laws of the monad, used to run the helpers *)

Lemma bind_Returns {S A B} (m : M S A) (k : A -> M S B) s a s' :
  m s = Returns a s' -> bind m k s = k a s'.
Proof. unfold bind. intros ->. reflexivity. Qed.

Lemma bind_Throws {S A B} (m : M S A) (k : A -> M S B) s e s' :
  m s = Throws e s' -> bind m k s = Throws e s'.
Proof. unfold bind. intros ->. reflexivity. Qed.

Lemma bind_Undefined {S A B} (m : M S A) (k : A -> M S B) s :
  m s = Undefined -> bind m k s = Undefined.
Proof. unfold bind. intros ->. reflexivity. Qed.

Lemma compound_assign_run {A} (op : A -> A -> option A) (v p1 : A) :
  compound_assign op v p1 =
    match op p1 v with
    | Some x => Returns x x
    | None => Undefined
    end.
Proof.
  unfold compound_assign, bind, get, defined.
  destruct (op p1 v); reflexivity.
Qed.

(** ** Integer-only compound assignments *)

Lemma integer_only_text_error op : integer_only_error (bad_boxed_cast (integer_only_text op)).
Proof. exists op. reflexivity. Qed.

(** The error path of an integer-only helper on a floating operand. *)
Ltac rejects_float H op :=
  exists (bad_boxed_cast (integer_only_text op)); split;
  [ cbv beta delta [assign_bitwise_and_pod assign_xor_pod assign_bitwise_or_pod
                    assign_left_shift_pod assign_remainder_pod assign_right_shift_pod];
    rewrite H; reflexivity
  | apply integer_only_text_error ].

(** C1: on an operand with [isfloat = true] each of the six integer-only
    helpers ([&=], [^=], [|=], [<<=], [%=], [>>=]) throws the
    integer-only-operator error, and the target [p1] keeps its value. *)
Theorem integer_only_helpers_reject_float (t : integer_type) (p1 : Z) (r : Boxed_Numeric)
    (Hfloat : isfloat r = true) :
  Forall (fun helper : integer_type -> Boxed_Numeric -> M Z Z =>
            exists e, helper t r p1 = Throws e p1 /\ integer_only_error e)
    [assign_bitwise_and_pod; assign_xor_pod; assign_bitwise_or_pod;
     assign_left_shift_pod; assign_remainder_pod; assign_right_shift_pod].
Proof.
  repeat match goal with
         | |- Forall _ [] => constructor
         | |- Forall _ (_ :: _) => constructor
         end.
  - rejects_float Hfloat "&=".
  - rejects_float Hfloat "^=".
  - rejects_float Hfloat "&=".
  - rejects_float Hfloat "<<=".
  - rejects_float Hfloat "%=".
  - rejects_float Hfloat ">>=".
Qed.

Lemma integer_only_helpers_reject_float_witness :
  Forall (fun helper : integer_type -> Boxed_Numeric -> M Z Z =>
            exists e, helper t_int (floating one_half) 7 = Throws e 7 /\ integer_only_error e)
    [assign_bitwise_and_pod; assign_xor_pod; assign_bitwise_or_pod;
     assign_left_shift_pod; assign_remainder_pod; assign_right_shift_pod].
Proof.
  apply (integer_only_helpers_reject_float t_int 7 (floating one_half)).
  reflexivity.
Defined.

(** The five helpers whose error text carries their own operator. *)
Lemma integer_only_errors_named (t : integer_type) (p1 : Z) (x : double) (z : Z) :
  let r := mk_Boxed_Numeric true z x in
  (exists e, assign_bitwise_and_pod t r p1 = Throws e p1 /\ names_operator "&=" e = true)
  /\ (exists e, assign_xor_pod t r p1 = Throws e p1 /\ names_operator "^=" e = true)
  /\ (exists e, assign_left_shift_pod t r p1 = Throws e p1 /\ names_operator "<<=" e = true)
  /\ (exists e, assign_remainder_pod t r p1 = Throws e p1 /\ names_operator "%=" e = true)
  /\ (exists e, assign_right_shift_pod t r p1 = Throws e p1 /\ names_operator ">>=" e = true).
Proof.
  cbn. repeat split; eexists; (split; [reflexivity | reflexivity]).
Qed.

(** C2: the error of [assign_bitwise_or_pod] on a floating operand carries
    the text of [&=]: it names [&=] and does not name [|=], the operator
    that the helper applies. *)
Theorem assign_bitwise_or_pod_names_and (t : integer_type) (p1 : Z) (x : double) (z : Z) :
  assign_bitwise_or_pod t (mk_Boxed_Numeric true z x) p1
    = Throws (bad_boxed_cast "&= only valid for integer types") p1
  /\ names_operator "|=" (bad_boxed_cast "&= only valid for integer types") = false
  /\ names_operator "&=" (bad_boxed_cast "&= only valid for integer types") = true.
Proof. repeat split. Qed.

(** ** Arithmetic compound assignments *)

Lemma applied_in_target_run {A} (op : A -> A -> option A) (o : option A) (p1 : A) :
  bind (defined o) (compound_assign op) p1 = applied_in_target op o p1.
Proof.
  destruct o as [x|]; cbn; [ | reflexivity ].
  unfold bind at 1. cbn. apply compound_assign_run.
Qed.

Lemma arithmetic_helper_run {A} (op : A -> A -> option A) (b : bool) (x : option A) (y p1 : A) :
  (if b then bind (defined x) (compound_assign op) else compound_assign op y) p1
  = applied_in_target op (if b then x else Some y) p1.
Proof.
  destruct b.
  - apply applied_in_target_run.
  - rewrite compound_assign_run. reflexivity.
Qed.

(** C3, as the code has it: each arithmetic helper ([+=], [-=], [*=], [/=])
    selects [r.d] when [r.isfloat] and [r.i] otherwise, converts the selected
    field to the target type [P1] (as [construct_pod] does), and applies
    [P1]'s own operator to [p1] and the converted operand.  For an integer
    target the floating operand is truncated to the integer type; only a
    [double] target has the integer operand converted to double. *)
Theorem arithmetic_helpers_convert_operand (P1 : pod_type) (r : Boxed_Numeric) (p1 : value P1) :
  let operand : option (value P1) :=
    match P1 with
    | Integer t =>
        if isfloat r then
          match truncate (d r) with
          | Some z => if in_range t z then Some z else None
          | None => None
          end
        else Some (wrap t (i r))
    | Double =>
        if isfloat r then Some (d r)
        else Some (binary_normalize prec emax (i r) 0 false)
    end in
  construct_pod P1 r = operand
  /\ assign_sum_pod P1 r p1 = applied_in_target (pod_add P1) operand p1
  /\ assign_difference_pod P1 r p1 = applied_in_target (pod_sub P1) operand p1
  /\ assign_product_pod P1 r p1 = applied_in_target (pod_mul P1) operand p1
  /\ assign_quotient_pod P1 r p1 = applied_in_target (pod_div P1) operand p1.
Proof.
  intros operand.
  assert (Hop : operand = (if isfloat r then of_double P1 (d r) else Some (of_int64 P1 (i r)))).
  { subst operand. destruct P1 as [t|]; reflexivity. }
  rewrite Hop. clear operand Hop.
  split; [ reflexivity | ].
  unfold assign_sum_pod, assign_difference_pod, assign_product_pod, assign_quotient_pod.
  repeat split; apply arithmetic_helper_run.
Qed.

(** With an integer target the operand of a floating [r] is the integer
    part of [r.d], and the arithmetic is the integer one, wrapped to the
    target. *)
Lemma integer_target_truncates (t : integer_type) (r : Boxed_Numeric) (p1 z : Z) :
  isfloat r = true ->
  truncate (d r) = Some z ->
  in_range t z = true ->
  assign_sum_pod (Integer t) r p1 = Returns (wrap t (p1 + z)) (wrap t (p1 + z))
  /\ assign_difference_pod (Integer t) r p1 = Returns (wrap t (p1 - z)) (wrap t (p1 - z))
  /\ assign_product_pod (Integer t) r p1 = Returns (wrap t (p1 * z)) (wrap t (p1 * z)).
Proof.
  intros Hf Ht Hr.
  unfold assign_sum_pod, assign_difference_pod, assign_product_pod.
  rewrite !arithmetic_helper_run, Hf. cbn. rewrite Ht, Hr. cbn. repeat split.
Qed.

(** The two readings of [2 *= 1.5] on an [int]: the code multiplies by the
    truncated operand, the promotion rule of the spec would give 3. *)
Example product_by_three_halves :
  assign_product_pod (Integer t_int) (floating three_halves) 2 = Returns 2 2
  /\ spec_float_wins (SFmul prec emax) t_int (floating three_halves) 2 = Returns 3 3.
Proof. split; vm_compute; reflexivity. Qed.

(** C3, as stated, fails: on an [int] target holding 2 and the floating
    operand 1.5, [*=] is not carried out in double. *)
Lemma float_operand_does_not_win :
  assign_product_pod (Integer t_int) (floating three_halves) 2
  <> spec_float_wins (SFmul prec emax) t_int (floating three_halves) 2.
Proof. vm_compute. discriminate. Qed.

(** ** Plain assignment from a Boxed_Numeric *)

Lemma in_range_bounds t z : in_range t z = true <-> min_value t <= z <= max_value t.
Proof. unfold in_range. rewrite andb_true_iff, !Z.leb_le. tauto. Qed.

Lemma wrap_in_range t z : in_range t z = true -> wrap t z = z.
Proof.
  rewrite in_range_bounds.
  destruct t; cbv [min_value max_value wrap is_signed bits]; intros H.
  all: try (rewrite Z.mod_small; lia).
Qed.

Lemma number_eqb_integer z : number_eqb (finite (inject_Z z)) (finite (inject_Z z)) = true.
Proof. cbn. apply Qeq_bool_iff. reflexivity. Qed.

Lemma number_eqb_double x :
  is_nan x = false -> number_eqb (number_of_double x) (number_of_double x) = true.
Proof.
  destruct x as [s|s| |s m e]; cbn; try discriminate; intros _.
  - reflexivity.
  - destruct s; reflexivity.
  - destruct (0 <=? e); cbn; apply Qeq_bool_iff; reflexivity.
Qed.

(** Truncation of an integral double keeps its value. *)
Lemma truncate_exact x z :
  is_integral x = true -> truncate x = Some z ->
  number_eqb (finite (inject_Z z)) (number_of_double x) = true.
Proof.
  destruct x as [s|s| |s m e]; cbn; try discriminate.
  - intros _ [= <-]. reflexivity.
  - intros Hi [= <-].
    destruct (Z.leb_spec 0 e) as [He|He]; cbn.
    + apply Qeq_bool_iff. unfold Qeq; cbn.
      rewrite Z.shiftl_mul_pow2 by lia. destruct s; cbn; lia.
    + cbn [orb] in Hi. apply Z.eqb_eq in Hi.
      apply Qeq_bool_iff. unfold Qeq; cbn [Qnum Qden inject_Z].
      rewrite Z.shiftl_div_pow2 by lia.
      assert (Hp : Z.pos (2 ^ Z.to_pos (- e)) = 2 ^ (- e)).
      { rewrite Pos2Z.inj_pow. rewrite Z2Pos.id by lia. reflexivity. }
      rewrite Hp.
      assert (0 < 2 ^ (- e)) by (apply Z.pow_pos_nonneg; lia).
      pose proof (Z.div_exact (Z.pos m) (2 ^ (- e)) ltac:(lia)) as Hd.
      apply Hd in Hi.
      destruct s; cbn [cond_Zopp]; nia.
Qed.

(** *** Conversion of a small integer to double is exact *)

Lemma digits2_pos_size m : digits2_pos m = Pos.size m.
Proof. induction m; cbn; congruence. Qed.

Lemma digits2_pos_le_53 m : Z.pos m < 2 ^ 53 -> Z.pos (digits2_pos m) <= 53.
Proof.
  intros H. rewrite digits2_pos_size.
  destruct (Z.le_gt_cases (Z.pos (Pos.size m)) 53) as [|Hgt]; [assumption|].
  exfalso.
  pose proof (Pos.size_le m) as Hle.
  assert (Hz : 2 ^ Z.pos (Pos.size m) <= 2 * Z.pos m).
  { rewrite <- Pos2Z.inj_pow. change (2 * Z.pos m) with (Z.pos m~0).
    apply Pos2Z.pos_le_pos, Hle. }
  assert (2 ^ 54 <= 2 ^ Z.pos (Pos.size m)) by (apply Z.pow_le_mono_r; lia).
  lia.
Qed.

Lemma iter_xO_digits m k : digits2_pos (Pos.iter xO m k) = (digits2_pos m + k)%positive.
Proof.
  induction k using Pos.peano_ind.
  - cbn. lia.
  - rewrite Pos.iter_succ. cbn. rewrite IHk. lia.
Qed.

Lemma iter_xO_value m k : Z.pos (Pos.iter xO m k) = Z.pos m * 2 ^ Z.pos k.
Proof.
  induction k using Pos.peano_ind.
  - cbn. lia.
  - rewrite Pos.iter_succ, Pos2Z.inj_xO, IHk, Pos2Z.inj_succ, Z.pow_succ_r by lia. lia.
Qed.

Ltac no_shift :=
  match goal with
  | |- context [fexp prec emax ?a - ?b] =>
      replace (fexp prec emax a - b) with 0
        by (unfold fexp, emin, prec, emax; lia)
  end;
  cbn [shr shr_record_of_loc loc_of_shr_record shr_m round_nearest_even Zdigits2].

(** A mantissa below 2^53 is aligned to 53 digits and then needs no
    rounding. *)
Lemma binary_round_exact sx mx :
  Z.pos mx < 2 ^ 53 ->
  number_eqb (number_of_double (binary_round prec emax sx mx 0))
             (finite (inject_Z (cond_Zopp sx (Z.pos mx)))) = true.
Proof.
  intros Hm.
  pose proof (digits2_pos_le_53 mx Hm) as Hd.
  unfold binary_round.
  replace (fexp prec emax (Z.pos (digits2_pos mx) + 0)) with (Z.pos (digits2_pos mx) - 53)
    by (unfold fexp, emin, prec, emax; lia).
  unfold shl_align.
  replace (Z.pos (digits2_pos mx) - 53 - 0) with (Z.pos (digits2_pos mx) - 53) by lia.
  destruct (Z.pos (digits2_pos mx) - 53) as [|p|p] eqn:Hk; [ | lia | ].
  - unfold binary_round_aux, shr_fexp.
    cbn [Zdigits2].
    no_shift. no_shift.
    cbn. apply Qeq_bool_iff. unfold Qeq. cbn. destruct sx; cbn; lia.
  - unfold binary_round_aux, shr_fexp.
    cbn [Zdigits2].
    rewrite iter_xO_digits. no_shift.
    rewrite iter_xO_digits. no_shift.
    replace (Z.neg p <=? emax - prec) with true
      by (symmetry; apply Z.leb_le; unfold emax, prec; lia).
    cbn [number_of_double].
    replace (0 <=? Z.neg p) with false by reflexivity.
    cbn [number_eqb]. apply Qeq_bool_iff. unfold Qeq. cbn [Qnum Qden inject_Z].
    rewrite Pos2Z.inj_pow.
    pose proof (iter_xO_value mx p) as Hv.
    change (- Z.neg p) with (Z.pos p). cbn [Z.to_pos].
    destruct sx; unfold cond_Zopp; rewrite Hv; lia.
Qed.

Lemma of_int64_double_exact z :
  Z.abs z < 2 ^ 53 ->
  number_eqb (number_of_double (of_int64 Double z)) (finite (inject_Z z)) = true.
Proof.
  intros Hz. destruct z as [|m|m]; cbn [of_int64 binary_normalize].
  - reflexivity.
  - apply (binary_round_exact false). lia.
  - apply (binary_round_exact true). lia.
Qed.

(** [assign_pod] stores the conversion of [construct_pod] and returns it. *)
Lemma assign_pod_run (P1 : pod_type) (v : Boxed_Numeric) (p1 : value P1) :
  assign_pod P1 v p1 =
    match construct_pod P1 v with
    | Some x => Returns x x
    | None => Undefined
    end.
Proof.
  unfold assign_pod, construct_pod.
  destruct (isfloat v); [ | reflexivity ].
  destruct (of_double P1 (d v)); reflexivity.
Qed.

(** C9, as the code has it: after [assign_pod(p1, v)] the target holds the
    active field of [v] converted to [T] (the value of [construct_pod]), and
    that value is numerically equal to the active field whenever the field's
    value is representable in [T]. *)
Theorem assign_pod_reads_back (P1 : pod_type) (p1 : value P1) (v : Boxed_Numeric) :
  assign_pod P1 v p1
  = match (if isfloat v then of_double P1 (d v) else Some (of_int64 P1 (i v))) with
    | Some x => Returns x x
    | None => Undefined
    end
  /\ (representable P1 v = true ->
      exists x : value P1,
        assign_pod P1 v p1 = Returns x x
        /\ number_eqb (number_of P1 x) (active_number v) = true).
Proof.
  split; [ apply assign_pod_run | ].
  intros Hrep. rewrite assign_pod_run.
  unfold construct_pod, representable, active_number in *.
  destruct P1 as [t|]; destruct (isfloat v); cbn [of_double of_int64 number_of] in *.
  - apply andb_true_iff in Hrep as [Hint Hr].
    destruct (truncate (d v)) as [z|] eqn:Ht; [ | discriminate ].
    rewrite Hr. exists z. split; [ reflexivity | ]. now apply truncate_exact.
  - exists (wrap t (i v)). split; [ reflexivity | ].
    rewrite (wrap_in_range _ _ Hrep). apply number_eqb_integer.
  - exists (d v). split; [ reflexivity | ]. apply number_eqb_double.
    now apply negb_true_iff.
  - eexists. split; [ reflexivity | ]. apply of_int64_double_exact.
    apply Z.ltb_lt in Hrep. exact Hrep.
Qed.

Lemma assign_pod_reads_back_witness :
  (exists x : Z,
     assign_pod (Integer t_int) (integral 5) 7 = Returns x x
     /\ number_eqb (number_of (Integer t_int) x) (active_number (integral 5)) = true)
  /\ (exists x : double,
        assign_pod Double (integral (-3)) one_half = Returns x x
        /\ number_eqb (number_of Double x) (active_number (integral (-3))) = true)
  /\ (exists x : Z,
        assign_pod (Integer t_char) (floating (of_int64 Double 65)) 0 = Returns x x
        /\ number_eqb (number_of (Integer t_char) x)
             (active_number (floating (of_int64 Double 65))) = true).
Proof.
  split; [ | split ].
  - apply (proj2 (assign_pod_reads_back (Integer t_int) 7 (integral 5))).
    reflexivity.
  - apply (proj2 (assign_pod_reads_back Double one_half (integral (-3)))).
    reflexivity.
  - apply (proj2 (assign_pod_reads_back (Integer t_char) 0 (floating (of_int64 Double 65)))).
    reflexivity.
Defined.

(** Outside the representable values the target holds the C++ conversion:
    -1 assigned to a [size_t] reads back as 2^64 - 1, and 0.5 assigned to an
    [int] as 0. *)
Example assign_pod_converts :
  assign_pod (Integer t_size_t) (integral (-1)) 0
    = Returns 18446744073709551615 18446744073709551615
  /\ assign_pod (Integer t_int) (floating one_half) 7 = Returns 0 0.
Proof. split; reflexivity. Qed.

(** C9, as stated, fails: -1 assigned to a [size_t] is not read back as a
    value numerically equal to -1. *)
Lemma assign_pod_not_numerically_equal :
  ~ (exists x : Z,
       assign_pod (Integer t_size_t) (integral (-1)) 0 = Returns x x
       /\ number_eqb (number_of (Integer t_size_t) x) (active_number (integral (-1))) = true).
Proof.
  intros (x & Hx & Heq).
  rewrite (proj1 assign_pod_converts) in Hx.
  injection Hx as <-.
  vm_compute in Heq. discriminate.
Qed.

(** ** String conversions *)

(** No double compares equal to NaN. *)
Lemma SFeqb_nan (y : double) : SFeqb y S754_nan = false.
Proof. destruct y as [s|s| |s m e]; reflexivity. Qed.

(** On [double] the round trip cannot hold for NaN: whatever text
    [lexical_cast] gives to NaN and reads back, the result does not compare
    equal to NaN. *)
Lemma nan_does_not_round_trip :
  ~ (exists L : Lexical_Cast double, round_trips L (pod_eqb Double) S754_nan).
Proof.
  intros (L & y & _ & Heq). cbn in Heq.
  rewrite SFeqb_nan in Heq. discriminate.
Qed.

(** ** Boxed values and function objects *)

Lemma deref_run (bv : Boxed_Value) (σ : Store) (x : Data) :
  σ !! m_data bv = Some x -> deref bv σ = Returns x σ.
Proof. unfold deref. intros ->. reflexivity. Qed.

Lemma fresh_cell (σ : Store) : σ !! fresh (dom σ) = None.
Proof. apply not_elem_of_dom, is_fresh. Qed.

Lemma size_as_int_small {A} (v : list A) :
  (length v < 2)%nat -> size_as_int v = Z.of_nat (length v).
Proof.
  intros H. unfold size_as_int. apply wrap_in_range, in_range_bounds.
  cbv [min_value max_value is_signed bits]. lia.
Qed.

Lemma boxed_cast_run (bv : Boxed_Value) (σ : Store) (x : Data) (f : Proxy_Function_Base) :
  σ !! m_data bv = Some x -> m_obj x = obj_function f ->
  boxed_cast_Const_Proxy_Function bv σ = Returns f σ.
Proof.
  intros Hx Hf. unfold boxed_cast_Const_Proxy_Function.
  rewrite (bind_Returns _ _ _ _ _ (deref_run _ _ _ Hx)), Hf. reflexivity.
Qed.

(** C4: [bind_function] throws the arity error (size, 2) on fewer than two
    parameters; on at least two, with a callable first, it returns a new
    Boxed_Value holding the Bound function of [params[0]] and the
    parameters after it. *)
Theorem bind_function_spec (params : list Boxed_Value) (σ : Store) :
  ((length params < 2)%nat ->
     Bootstrap.bind_function params σ
     = Throws (arity_error (Z.of_nat (length params)) 2) σ)
  /\ (forall (p0 : Boxed_Value) (x : Data) (f : Proxy_Function_Base),
        (2 <= length params)%nat ->
        params !! 0%nat = Some p0 ->
        σ !! m_data p0 = Some x ->
        m_obj x = obj_function f ->
        exists b : Boxed_Value,
          σ !! m_data b = None
          /\ Bootstrap.bind_function params σ
             = Returns b
                 (<[m_data b := Data_of_shared_ptr (Proxy_Function_Type true)
                                  (Bound_Function f (drop 1 params))]> σ)).
Proof.
  unfold Bootstrap.bind_function. split.
  - intros Hlen. rewrite (proj2 (Nat.ltb_lt _ _) Hlen).
    rewrite (size_as_int_small _ Hlen). reflexivity.
  - intros p0 x f Hlen Hp0 Hx Hf.
    rewrite (proj2 (Nat.ltb_ge _ _) Hlen).
    exists (mk_Boxed_Value (fresh (dom σ))). split; [ apply fresh_cell | ].
    unfold at_index. rewrite Hp0. cbn [defined].
    unfold bind at 1. cbn [ret].
    rewrite (bind_Returns _ _ _ _ _ (boxed_cast_run _ _ _ _ Hx Hf)).
    reflexivity.
Qed.

Lemma bind_function_spec_witness :
  Bootstrap.bind_function [cell 1] sample_store = Throws (arity_error 1 2) sample_store
  /\ exists b : Boxed_Value,
       sample_store !! m_data b = None
       /\ Bootstrap.bind_function [cell 1; cell 2] sample_store
          = Returns b
              (<[m_data b := Data_of_shared_ptr (Proxy_Function_Type true)
                               (Bound_Function sample_function [cell 2])]> sample_store).
Proof.
  split.
  - apply (proj1 (bind_function_spec [cell 1] sample_store)). cbn. lia.
  - apply (proj2 (bind_function_spec [cell 1; cell 2] sample_store) (cell 1)
             (Data_of_shared_ptr (Proxy_Function_Type true) sample_function) sample_function).
    + cbn. lia.
    + reflexivity.
    + reflexivity.
    + reflexivity.
Defined.

(** C5: [call_exists] throws the arity error (size, 1) on an empty list;
    otherwise, with a callable [f] first, it returns a new boxed boolean,
    the value of [f.call_match] on the parameters after it, and leaves
    every existing cell as it was. *)
Theorem call_exists_spec
    (call_match : Proxy_Function_Base -> list Boxed_Value -> Store -> bool)
    (params : list Boxed_Value) (σ : Store) :
  (params = [] ->
     Bootstrap.call_exists call_match params σ
     = Throws (arity_error (Z.of_nat (length params)) 1) σ)
  /\ (forall (p0 : Boxed_Value) (x : Data) (f : Proxy_Function_Base),
        params !! 0%nat = Some p0 ->
        σ !! m_data p0 = Some x ->
        m_obj x = obj_function f ->
        exists b : Boxed_Value,
          σ !! m_data b = None
          /\ Bootstrap.call_exists call_match params σ
             = Returns b (<[m_data b := Data_of_bool (call_match f (drop 1 params) σ)]> σ)).
Proof.
  unfold Bootstrap.call_exists. split.
  - intros ->. reflexivity.
  - intros p0 x f Hp0 Hx Hf.
    destruct params as [|q rest]; [ discriminate | ].
    cbn [length Nat.ltb Nat.leb].
    exists (mk_Boxed_Value (fresh (dom σ))). split; [ apply fresh_cell | ].
    unfold at_index. rewrite Hp0. cbn [defined].
    unfold bind at 1. cbn [ret].
    rewrite (bind_Returns _ _ _ _ _ (boxed_cast_run _ _ _ _ Hx Hf)).
    reflexivity.
Qed.

Lemma call_exists_spec_witness :
  Bootstrap.call_exists unary_match [] sample_store = Throws (arity_error 0 1) sample_store
  /\ exists b : Boxed_Value,
       sample_store !! m_data b = None
       /\ Bootstrap.call_exists unary_match [cell 1; cell 2] sample_store
          = Returns b (<[m_data b := Data_of_bool true]> sample_store).
Proof.
  split.
  - apply (proj1 (call_exists_spec unary_match [] sample_store)). reflexivity.
  - apply (proj2 (call_exists_spec unary_match [cell 1; cell 2] sample_store) (cell 1)
             (Data_of_shared_ptr (Proxy_Function_Type true) sample_function) sample_function).
    + reflexivity.
    + reflexivity.
    + reflexivity.
Defined.

(** *** Assignment *)

Lemma is_undef_run (bv : Boxed_Value) (σ : Store) (x : Data) :
  σ !! m_data bv = Some x ->
  Boxed_Value_.is_undef bv σ = Returns (Type_Info.is_undef (m_type_info x)) σ.
Proof.
  intros Hx. unfold Boxed_Value_.is_undef, Boxed_Value_.get_type_info.
  unfold bind, ret. rewrite (deref_run _ _ _ Hx). reflexivity.
Qed.

Lemma get_type_info_run (bv : Boxed_Value) (σ : Store) (x : Data) :
  σ !! m_data bv = Some x ->
  Boxed_Value_.get_type_info bv σ = Returns (m_type_info x) σ.
Proof.
  intros Hx. unfold Boxed_Value_.get_type_info.
  unfold bind, ret. rewrite (deref_run _ _ _ Hx). reflexivity.
Qed.

(** [assign] on a target that passes its test rebinds the target's cell. *)
Lemma assign_run (lhs rhs : Boxed_Value) (σ : Store) (l r : Data) :
  σ !! m_data lhs = Some l ->
  σ !! m_data rhs = Some r ->
  Type_Info.is_undef (m_type_info l)
  || (Type_Info.bare_equal (m_type_info l) (m_type_info r)
      && negb (Type_Info.is_const (m_type_info l))) = true ->
  Boxed_Value_.assign lhs rhs σ = Returns lhs (<[m_data lhs := r]> σ).
Proof.
  intros Hl Hr Hok. unfold Boxed_Value_.assign.
  rewrite (bind_Returns _ _ _ _ _ (deref_run _ _ _ Hl)).
  rewrite (bind_Returns _ _ _ _ _ (deref_run _ _ _ Hr)).
  rewrite Hok. reflexivity.
Qed.

(** C6: [ptr_assign] rebinds [lhs] to the handle and returns [lhs] exactly
    when [lhs] is undefined, or is non-const and bare-equal to the pointee
    type; otherwise it throws the pointer-assignment type mismatch and the
    cell of [lhs] is as before. *)
Theorem ptr_assign_spec (Type_ : Type_Info.t) (lhs : Boxed_Value) (rhs : Proxy_Function_Base)
    (σ : Store) (l : Data) (Hl : σ !! m_data lhs = Some l) :
  ptr_assign Type_ lhs rhs σ =
    if Type_Info.is_undef (m_type_info l)
       || (negb (Type_Info.is_const (m_type_info l))
           && Type_Info.bare_equal (m_type_info l) Type_)
    then Returns lhs (<[m_data lhs := Data_of_shared_ptr Type_ rhs]> σ)
    else Throws (bad_boxed_cast "type mismatch in pointer assignment") σ.
Proof.
  unfold ptr_assign.
  rewrite (bind_Returns _ _ _ _ _ (is_undef_run _ _ _ Hl)).
  rewrite (bind_Returns _ _ _ _ _ (get_type_info_run _ _ _ Hl)).
  destruct (Type_Info.is_undef (m_type_info l)
            || (negb (Type_Info.is_const (m_type_info l))
                && Type_Info.bare_equal (m_type_info l) Type_)) eqn:Hok;
    [ | reflexivity ].
  set (tmp := fresh (dom σ)).
  set (x := Data_of_shared_ptr Type_ rhs).
  assert (Hfresh : σ !! tmp = None) by apply fresh_cell.
  assert (Hne : tmp <> m_data lhs) by congruence.
  unfold bind at 1. unfold new_Boxed_Value. fold tmp. fold x.
  rewrite (bind_Returns _ _ _ _ _
             (assign_run lhs (mk_Boxed_Value tmp) (<[tmp := x]> σ) l x
                ltac:(rewrite lookup_insert_ne by exact Hne; exact Hl)
                ltac:(apply lookup_insert_eq)
                ltac:(cbn [m_type_info x Data_of_shared_ptr];
                      rewrite (andb_comm (Type_Info.bare_equal _ _)); exact Hok))).
  unfold destroy, bind, ret. cbn [m_data].
  f_equal.
  rewrite delete_insert_ne by exact Hne.
  rewrite delete_insert_eq.
  rewrite delete_id by exact Hfresh.
  reflexivity.
Qed.

Lemma ptr_assign_spec_witness :
  ptr_assign (Proxy_Function_Type false) (cell 3) sample_function sample_store
  = Returns (cell 3)
      (<[3%positive := Data_of_shared_ptr (Proxy_Function_Type false) sample_function]>
         sample_store).
Proof.
  apply (ptr_assign_spec (Proxy_Function_Type false) (cell 3) sample_function sample_store
           (Data_of_shared_ptr (Proxy_Function_Type false) sample_guarded)).
  reflexivity.
Defined.

(** The other cases on the sample store: an undefined target is bound, a
    const function and a boolean are refused. *)
Example ptr_assign_samples :
  ptr_assign (Proxy_Function_Type false) (cell 4) sample_function sample_store
  = Returns (cell 4)
      (<[4%positive := Data_of_shared_ptr (Proxy_Function_Type false) sample_function]>
         sample_store)
  /\ ptr_assign (Proxy_Function_Type false) (cell 1) sample_function sample_store
     = Throws (bad_boxed_cast "type mismatch in pointer assignment") sample_store
  /\ ptr_assign (Proxy_Function_Type false) (cell 2) sample_function sample_store
     = Throws (bad_boxed_cast "type mismatch in pointer assignment") sample_store.
Proof. repeat split. Qed.

(** C10: [unknown_assign], the generic ["="], assigns and returns [lhs]
    only when [lhs] is undefined; on a [lhs] with a set type it throws,
    whatever the type of [rhs], so also when the two are bare-equal. *)
Theorem unknown_assign_spec (lhs rhs : Boxed_Value) (σ : Store) (l r : Data)
    (Hl : σ !! m_data lhs = Some l) (Hr : σ !! m_data rhs = Some r) :
  Bootstrap.unknown_assign lhs rhs σ =
    if Type_Info.is_undef (m_type_info l)
    then Returns lhs (<[m_data lhs := r]> σ)
    else Throws (bad_boxed_cast "boxed_value has a set type already") σ.
Proof.
  unfold Bootstrap.unknown_assign.
  rewrite (bind_Returns _ _ _ _ _ (is_undef_run _ _ _ Hl)).
  destruct (Type_Info.is_undef (m_type_info l)) eqn:Hundef; [ | reflexivity ].
  apply (assign_run lhs rhs σ l r Hl Hr).
  rewrite Hundef. reflexivity.
Qed.

Lemma unknown_assign_spec_witness :
  Type_Info.bare_equal (Proxy_Function_Type false) (Proxy_Function_Type true) = true
  /\ Bootstrap.unknown_assign (cell 3) (cell 1) sample_store
     = Throws (bad_boxed_cast "boxed_value has a set type already") sample_store.
Proof.
  split; [ reflexivity | ].
  apply (unknown_assign_spec (cell 3) (cell 1) sample_store
           (Data_of_shared_ptr (Proxy_Function_Type false) sample_guarded)
           (Data_of_shared_ptr (Proxy_Function_Type true) sample_function)).
  - reflexivity.
  - reflexivity.
Defined.

Example unknown_assign_binds_undefined :
  Bootstrap.unknown_assign (cell 4) (cell 2) sample_store
  = Returns (cell 4) (<[4%positive := Data_of_bool true]> sample_store).
Proof. reflexivity. Qed.

(** *** Guards *)

(** C7: on a candidate that is not Dynamic, [has_guard] is false and
    [get_guard] throws the guard-absent error; so it is for any Plain
    candidate, and [get_guard] also throws for a Dynamic candidate without a
    guard and returns the guard of one that has it. *)
Theorem guard_spec (pf : Proxy_Function_Base) (S : Type) (s : S) :
  ((forall body arity guard, pf <> Dynamic_Proxy_Function body arity guard) ->
     Bootstrap.has_guard pf = false
     /\ @Bootstrap.get_guard S pf s = Throws guard_absent s)
  /\ (forall arity param_types,
        pf = Plain arity param_types ->
        Bootstrap.has_guard pf = false
        /\ @Bootstrap.get_guard S pf s = Throws guard_absent s)
  /\ (forall body arity,
        pf = Dynamic_Proxy_Function body arity None ->
        Bootstrap.has_guard pf = false
        /\ @Bootstrap.get_guard S pf s = Throws guard_absent s)
  /\ (forall body arity g,
        pf = Dynamic_Proxy_Function body arity (Some g) ->
        Bootstrap.has_guard pf = true
        /\ @Bootstrap.get_guard S pf s = Returns g s).
Proof.
  repeat split; try (subst pf; reflexivity).
  - destruct pf; try reflexivity. now destruct (H body arity guard).
  - destruct pf; try reflexivity. now destruct (H body arity guard).
Qed.

Lemma guard_spec_witness :
  (Bootstrap.has_guard sample_function = false
   /\ @Bootstrap.get_guard unit sample_function tt = Throws guard_absent tt)
  /\ (Bootstrap.has_guard (Dynamic_Proxy_Function 7 1 None) = false
      /\ @Bootstrap.get_guard unit (Dynamic_Proxy_Function 7 1 None) tt = Throws guard_absent tt)
  /\ (Bootstrap.has_guard sample_guarded = true
      /\ @Bootstrap.get_guard unit sample_guarded tt = Returns sample_function tt).
Proof.
  split; [ | split ].
  - apply (proj1 (guard_spec sample_function unit tt)).
    intros body arity guard. discriminate.
  - apply (proj1 (proj2 (proj2 (guard_spec (Dynamic_Proxy_Function 7 1 None) unit tt))) 7%N 1).
    reflexivity.
  - apply (proj2 (proj2 (proj2 (guard_spec sample_guarded unit tt))) 7%N 1 sample_function).
    reflexivity.
Defined.

(** * Further properties of the POD helpers *)

(** ** Arithmetic of [wrap] *)

Lemma bits_pos t : 0 < bits t.
Proof. destruct t; reflexivity. Qed.

Lemma pow_bits_nonzero t : 2 ^ bits t <> 0.
Proof. pose proof (bits_pos t). apply Z.pow_nonzero; lia. Qed.

Lemma wrap_range t z : in_range t (wrap t z) = true.
Proof.
  apply in_range_bounds.
  destruct t; cbv [min_value max_value wrap is_signed bits];
    Z.div_mod_to_equations; lia.
Qed.

Lemma wrap_mod t z : wrap t z mod 2 ^ bits t = z mod 2 ^ bits t.
Proof.
  destruct t; cbv [wrap is_signed bits]; Z.div_mod_to_equations; lia.
Qed.

Lemma wrap_congr t a b : a mod 2 ^ bits t = b mod 2 ^ bits t -> wrap t a = wrap t b.
Proof.
  destruct t; cbv [wrap is_signed bits]; intros H; Z.div_mod_to_equations; lia.
Qed.

Lemma wrap_add_l t a b : wrap t (wrap t a + b) = wrap t (a + b).
Proof.
  apply wrap_congr.
  rewrite Z.add_mod, wrap_mod, <- Z.add_mod by apply pow_bits_nonzero. reflexivity.
Qed.

Lemma wrap_add_r t a b : wrap t (a + wrap t b) = wrap t (a + b).
Proof. rewrite Z.add_comm, wrap_add_l, Z.add_comm. reflexivity. Qed.

Lemma wrap_sub_l t a b : wrap t (wrap t a - b) = wrap t (a - b).
Proof.
  apply wrap_congr.
  rewrite Zminus_mod, wrap_mod, <- Zminus_mod. reflexivity.
Qed.

Lemma wrap_sub_r t a b : wrap t (a - wrap t b) = wrap t (a - b).
Proof.
  apply wrap_congr.
  rewrite Zminus_mod, wrap_mod, <- Zminus_mod. reflexivity.
Qed.

Lemma wrap_mul_l t a b : wrap t (wrap t a * b) = wrap t (a * b).
Proof.
  apply wrap_congr.
  rewrite Z.mul_mod, wrap_mod, <- Z.mul_mod by apply pow_bits_nonzero. reflexivity.
Qed.

Lemma wrap_mul_r t a b : wrap t (a * wrap t b) = wrap t (a * b).
Proof. rewrite Z.mul_comm, wrap_mul_l, Z.mul_comm. reflexivity. Qed.

Lemma wrap_ones t a : Z.land (wrap t a) (Z.ones (bits t)) = Z.land a (Z.ones (bits t)).
Proof.
  pose proof (bits_pos t).
  rewrite !Z.land_ones by lia. apply wrap_mod.
Qed.

Lemma wrap_congr_ones t a b :
  Z.land a (Z.ones (bits t)) = Z.land b (Z.ones (bits t)) -> wrap t a = wrap t b.
Proof.
  pose proof (bits_pos t).
  rewrite !Z.land_ones by lia. apply wrap_congr.
Qed.

Lemma wrap_land_l t a b : wrap t (Z.land (wrap t a) b) = wrap t (Z.land a b).
Proof.
  apply wrap_congr_ones.
  rewrite <- !Z.land_assoc, !(Z.land_comm b), !Z.land_assoc, wrap_ones. reflexivity.
Qed.

Lemma wrap_lor_l t a b : wrap t (Z.lor (wrap t a) b) = wrap t (Z.lor a b).
Proof.
  apply wrap_congr_ones.
  rewrite !Z.land_lor_distr_l, wrap_ones. reflexivity.
Qed.

Lemma land_lxor_distr a b c : Z.land (Z.lxor a b) c = Z.lxor (Z.land a c) (Z.land b c).
Proof.
  apply Z.bits_inj'. intros n _.
  rewrite Z.land_spec, !Z.lxor_spec, !Z.land_spec.
  destruct (Z.testbit a n), (Z.testbit b n), (Z.testbit c n); reflexivity.
Qed.

Lemma wrap_lxor_l t a b : wrap t (Z.lxor (wrap t a) b) = wrap t (Z.lxor a b).
Proof.
  apply wrap_congr_ones.
  rewrite !land_lxor_distr, wrap_ones. reflexivity.
Qed.

(** ** Running the helpers *)

Lemma assign_sum_pod_run P1 r p1 :
  assign_sum_pod P1 r p1 = applied_in_target (pod_add P1) (construct_pod P1 r) p1.
Proof. apply arithmetic_helper_run. Qed.

Lemma assign_difference_pod_run P1 r p1 :
  assign_difference_pod P1 r p1 = applied_in_target (pod_sub P1) (construct_pod P1 r) p1.
Proof. apply arithmetic_helper_run. Qed.

Lemma assign_product_pod_run P1 r p1 :
  assign_product_pod P1 r p1 = applied_in_target (pod_mul P1) (construct_pod P1 r) p1.
Proof. apply arithmetic_helper_run. Qed.

Lemma assign_quotient_pod_run P1 r p1 :
  assign_quotient_pod P1 r p1 = applied_in_target (pod_div P1) (construct_pod P1 r) p1.
Proof. apply arithmetic_helper_run. Qed.

(** The two branches of an integer-only helper. *)
Lemma integer_only_run (op : Z -> Z -> option Z) (t : integer_type) (r : Boxed_Numeric)
    (text : string) (p1 : Z) :
  (if negb (isfloat r)
   then compound_assign op (of_int64 (Integer t) (i r))
   else throw (bad_boxed_cast text)) p1
  = if isfloat r then Throws (bad_boxed_cast text) p1
    else applied_in_target op (Some (wrap t (i r))) p1.
Proof.
  destruct (isfloat r); cbn [negb]; [ reflexivity | ].
  rewrite compound_assign_run. reflexivity.
Qed.

Ltac run_helpers :=
  cbv beta delta [assign_bitwise_and_pod assign_xor_pod assign_bitwise_or_pod
                  assign_left_shift_pod assign_remainder_pod assign_right_shift_pod];
  rewrite ?integer_only_run, ?assign_sum_pod_run, ?assign_difference_pod_run,
    ?assign_product_pod_run, ?assign_quotient_pod_run, ?assign_pod_run.

Ltac each_helper :=
  repeat match goal with
         | |- Forall _ [] => constructor
         | |- Forall _ (_ :: _) => constructor
         end.

Lemma construct_pod_in_range t r x :
  construct_pod (Integer t) r = Some x -> in_range t x = true.
Proof.
  unfold construct_pod. destruct (isfloat r); cbn [of_double of_int64].
  - destruct (truncate (d r)) as [z|]; [ | discriminate ].
    destruct (in_range t z) eqn:Hz; [ | discriminate ]. now intros [= <-].
  - intros [= <-]. apply wrap_range.
Qed.

Lemma int_op_in_range t (op : integer_type -> Z -> Z -> option Z) a b x :
  In op [int_add; int_sub; int_mul; int_div; int_rem; int_and; int_or; int_xor;
         int_shl; int_shr] ->
  op t a b = Some x -> in_range t x = true.
Proof.
  intros Hop.
  repeat (destruct Hop as [<- | Hop]); try contradiction;
    cbv beta delta [int_add int_sub int_mul int_div int_rem int_and int_or int_xor
                    int_shl int_shr];
    repeat match goal with
           | |- context [if ?c then _ else _] => destruct c
           end;
    intros [= <-]; apply wrap_range.
Qed.

Lemma applied_in_target_in_range t (op : integer_type -> Z -> Z -> option Z) o p1 :
  In op [int_add; int_sub; int_mul; int_div; int_rem; int_and; int_or; int_xor;
         int_shl; int_shr] ->
  outcome_in_range t p1 (applied_in_target (op t) o p1).
Proof.
  intros Hop. unfold applied_in_target.
  destruct o as [x|]; [ | exact I ].
  destruct (op t p1 x) as [y|] eqn:Hy; [ | exact I ].
  split; [ reflexivity | ]. exact (int_op_in_range t op p1 x y Hop Hy).
Qed.

Ltac op_listed := cbn [In]; tauto.

(** X1: whatever the target holds and whatever the operand is, a helper at
    an integer type either is undefined, or throws and leaves the target as
    it was, or returns the new value of the target, which is within the
    range of the type. *)
Theorem integer_helpers_stay_in_range (t : integer_type) (r : Boxed_Numeric) (p1 : Z) :
  Forall (fun helper => outcome_in_range t p1 (helper r p1)) (integer_helpers t).
Proof.
  unfold integer_helpers. each_helper; run_helpers.
  - destruct (construct_pod (Integer t) r) as [x|] eqn:Hx; [ | exact I ].
    split; [ reflexivity | ]. exact (construct_pod_in_range t r x Hx).
  - apply (applied_in_target_in_range t int_add). op_listed.
  - apply (applied_in_target_in_range t int_sub). op_listed.
  - apply (applied_in_target_in_range t int_mul). op_listed.
  - apply (applied_in_target_in_range t int_div). op_listed.
  - destruct (isfloat r); [ reflexivity | ].
    apply (applied_in_target_in_range t int_and). op_listed.
  - destruct (isfloat r); [ reflexivity | ].
    apply (applied_in_target_in_range t int_xor). op_listed.
  - destruct (isfloat r); [ reflexivity | ].
    apply (applied_in_target_in_range t int_or). op_listed.
  - destruct (isfloat r); [ reflexivity | ].
    apply (applied_in_target_in_range t int_shl). op_listed.
  - destruct (isfloat r); [ reflexivity | ].
    apply (applied_in_target_in_range t int_rem). op_listed.
  - destruct (isfloat r); [ reflexivity | ].
    apply (applied_in_target_in_range t int_shr). op_listed.
Qed.

Lemma applied_in_target_no_throw {A} (op : A -> A -> option A) o p1 e s :
  applied_in_target op o p1 <> Throws e s.
Proof.
  unfold applied_in_target. destruct o as [x|]; [ | discriminate ].
  destruct (op p1 x); discriminate.
Qed.

(** X2: the only exception that leaves a POD helper is the integer-only
    one: each integer-only helper throws exactly when the operand is
    floating, and [assign_pod] and the four arithmetic helpers never throw,
    at any POD type. *)
Theorem pod_helpers_throw_only_on_float (t : integer_type) (P1 : pod_type)
    (r : Boxed_Numeric) (p1 : Z) (q : value P1) :
  Forall (fun helper : integer_type -> Boxed_Numeric -> M Z Z =>
            (exists e s, helper t r p1 = Throws e s) <-> isfloat r = true)
    [assign_bitwise_and_pod; assign_xor_pod; assign_bitwise_or_pod;
     assign_left_shift_pod; assign_remainder_pod; assign_right_shift_pod]
  /\ Forall (fun helper : Boxed_Numeric -> M (value P1) (value P1) =>
               forall e s, helper r q <> Throws e s)
       [assign_pod P1; assign_sum_pod P1; assign_difference_pod P1;
        assign_product_pod P1; assign_quotient_pod P1].
Proof.
  split; each_helper; run_helpers.
  1-6: destruct (isfloat r); (split;
         [ intros (e & s & H); first [ reflexivity | now apply applied_in_target_no_throw in H ]
         | intros H; first [ discriminate | eexists _, _; reflexivity ] ]).
  - intros e s. destruct (construct_pod P1 r); discriminate.
  - intros e s. apply applied_in_target_no_throw.
  - intros e s. apply applied_in_target_no_throw.
  - intros e s. apply applied_in_target_no_throw.
  - intros e s. apply applied_in_target_no_throw.
Qed.

Lemma pod_helpers_throw_only_on_float_witness :
  (exists e s, assign_remainder_pod t_int (floating one_half) 7 = Throws e s)
  /\ (forall e s, assign_remainder_pod t_int (integral 2) 7 <> Throws e s)
  /\ (forall e s, assign_quotient_pod Double (integral 0) one_half <> Throws e s).
Proof.
  pose proof (pod_helpers_throw_only_on_float t_int Double (floating one_half) 7 one_half)
    as [Hfloat _].
  pose proof (pod_helpers_throw_only_on_float t_int Double (integral 2) 7 one_half)
    as [Hint _].
  pose proof (pod_helpers_throw_only_on_float t_int Double (integral 0) 7 one_half)
    as [_ Harith].
  split; [ | split ].
  - apply (proj1 (List.Forall_forall _ _) Hfloat assign_remainder_pod).
    + cbn [In]. tauto.
    + reflexivity.
  - intros e s H.
    assert (Hr : isfloat (integral 2) = true).
    { apply (proj1 (List.Forall_forall _ _) Hint assign_remainder_pod).
      - cbn [In]. tauto.
      - exists e, s. exact H. }
    discriminate Hr.
  - apply (proj1 (List.Forall_forall _ _) Harith (assign_quotient_pod Double)).
    cbn [In]. tauto.
Defined.

(** ** Integer operands *)

(** X3: at an integer type the integer operand counts only modulo 2^bits:
    two integer operands that are congruent act alike in every helper. *)
Theorem integer_operand_modulo_width (t : integer_type) (r r' : Boxed_Numeric) (p1 : Z)
    (Hr : isfloat r = false) (Hr' : isfloat r' = false)
    (Hmod : i r mod 2 ^ bits t = i r' mod 2 ^ bits t) :
  Forall (fun helper => helper r p1 = helper r' p1) (integer_helpers t).
Proof.
  pose proof (wrap_congr t _ _ Hmod) as Hw.
  assert (Hc : construct_pod (Integer t) r = construct_pod (Integer t) r').
  { unfold construct_pod. rewrite Hr, Hr'. cbn [of_int64]. now rewrite Hw. }
  unfold integer_helpers. each_helper; run_helpers; rewrite ?Hr, ?Hr', ?Hc, ?Hw; reflexivity.
Qed.

Lemma integer_operand_modulo_width_witness :
  Forall (fun helper => helper (integral 257) 3 = helper (integral 1) 3)
    (integer_helpers t_char).
Proof.
  apply (integer_operand_modulo_width t_char (integral 257) (integral 1) 3).
  - reflexivity.
  - reflexivity.
  - reflexivity.
Defined.

(** X4: for [+=], [-=] and [*=] at an integer type, converting the integer
    operand to the target type first loses nothing: the target receives the
    exact sum, difference or product with [r.i], reduced to the type. *)
Theorem ring_helpers_exact_modulo (t : integer_type) (z : Z) (x : double) (p1 : Z) :
  let r := mk_Boxed_Numeric false z x in
  assign_sum_pod (Integer t) r p1 = Returns (wrap t (p1 + z)) (wrap t (p1 + z))
  /\ assign_difference_pod (Integer t) r p1 = Returns (wrap t (p1 - z)) (wrap t (p1 - z))
  /\ assign_product_pod (Integer t) r p1 = Returns (wrap t (p1 * z)) (wrap t (p1 * z)).
Proof.
  intros r. run_helpers. cbn.
  unfold int_add, int_sub, int_mul.
  rewrite wrap_add_r, wrap_sub_r, wrap_mul_r. repeat split.
Qed.

(** The quotient is another matter: the divisor is the converted operand.
    On an [int] holding 100, [/=] by 4294967298 divides by 2. *)
Example quotient_by_converted_operand :
  assign_quotient_pod (Integer t_int) (integral 4294967298) 100 = Returns 50 50.
Proof. reflexivity. Qed.

(** X5: at an integer type, [+=] followed by [-=] with the same operand
    (and [-=] followed by [+=]) gives the target its value back, wrap-around
    included. *)
Theorem sum_difference_cancel (t : integer_type) (r : Boxed_Numeric) (p1 x : Z)
    (Hp1 : in_range t p1 = true) (Hx : construct_pod (Integer t) r = Some x) :
  (assign_sum_pod (Integer t) r;; assign_difference_pod (Integer t) r) p1 = Returns p1 p1
  /\ (assign_difference_pod (Integer t) r;; assign_sum_pod (Integer t) r) p1 = Returns p1 p1.
Proof.
  split.
  - erewrite bind_Returns
      by (rewrite assign_sum_pod_run, Hx; reflexivity).
    rewrite assign_difference_pod_run, Hx. cbn. unfold int_sub.
    rewrite wrap_sub_l. replace (p1 + x - x) with p1 by lia.
    rewrite (wrap_in_range t p1 Hp1). reflexivity.
  - erewrite bind_Returns
      by (rewrite assign_difference_pod_run, Hx; reflexivity).
    rewrite assign_sum_pod_run, Hx. cbn. unfold int_add.
    rewrite wrap_add_l. replace (p1 - x + x) with p1 by lia.
    rewrite (wrap_in_range t p1 Hp1). reflexivity.
Qed.

Lemma sum_difference_cancel_witness :
  (assign_sum_pod (Integer t_char) (integral 100);;
   assign_difference_pod (Integer t_char) (integral 100)) 100 = Returns 100 100
  /\ (assign_difference_pod (Integer t_char) (integral 100);;
      assign_sum_pod (Integer t_char) (integral 100)) 100 = Returns 100 100.
Proof.
  apply (sum_difference_cancel t_char (integral 100) 100 100).
  - reflexivity.
  - reflexivity.
Defined.

(** On a [double] the two do not cancel: 1 + 2^53 rounds to 2^53. *)
Example sum_difference_double :
  (assign_sum_pod Double (integral 9007199254740992);;
   assign_difference_pod Double (integral 9007199254740992)) (of_int64 Double 1)
  = Returns (S754_zero false) (S754_zero false).
Proof. vm_compute. reflexivity. Qed.

(** ** Bitwise helpers *)

(** X6: [^=] with the same integer operand twice gives the target its value
    back. *)
Theorem xor_twice_restores (t : integer_type) (r : Boxed_Numeric) (p1 : Z)
    (Hr : isfloat r = false) (Hp1 : in_range t p1 = true) :
  (assign_xor_pod t r;; assign_xor_pod t r) p1 = Returns p1 p1.
Proof.
  erewrite bind_Returns by (run_helpers; rewrite Hr; reflexivity).
  run_helpers. rewrite Hr. cbn. unfold int_xor.
  rewrite wrap_lxor_l, Z.lxor_assoc, Z.lxor_nilpotent, Z.lxor_0_r.
  rewrite (wrap_in_range t p1 Hp1). reflexivity.
Qed.

Lemma xor_twice_restores_witness :
  (assign_xor_pod t_int (integral (-6));; assign_xor_pod t_int (integral (-6))) 12345
  = Returns 12345 12345.
Proof.
  apply (xor_twice_restores t_int (integral (-6)) 12345).
  - reflexivity.
  - reflexivity.
Defined.

(** X7: [&=] and [|=] are idempotent: a second application with the same
    integer operand changes nothing. *)
Theorem and_or_idempotent (t : integer_type) (r : Boxed_Numeric) (p1 : Z)
    (Hr : isfloat r = false) :
  (assign_bitwise_and_pod t r;; assign_bitwise_and_pod t r) p1 = assign_bitwise_and_pod t r p1
  /\ (assign_bitwise_or_pod t r;; assign_bitwise_or_pod t r) p1 = assign_bitwise_or_pod t r p1.
Proof.
  split.
  - erewrite bind_Returns by (run_helpers; rewrite Hr; reflexivity).
    run_helpers. rewrite Hr. cbn. unfold int_and.
    rewrite wrap_land_l, <- Z.land_assoc, Z.land_diag. reflexivity.
  - erewrite bind_Returns by (run_helpers; rewrite Hr; reflexivity).
    run_helpers. rewrite Hr. cbn. unfold int_or.
    rewrite wrap_lor_l, <- Z.lor_assoc, Z.lor_diag. reflexivity.
Qed.

Lemma and_or_idempotent_witness :
  (assign_bitwise_and_pod t_size_t (integral (-4));;
   assign_bitwise_and_pod t_size_t (integral (-4))) 7
  = assign_bitwise_and_pod t_size_t (integral (-4)) 7
  /\ (assign_bitwise_or_pod t_size_t (integral (-4));;
      assign_bitwise_or_pod t_size_t (integral (-4))) 7
     = assign_bitwise_or_pod t_size_t (integral (-4)) 7.
Proof.
  apply (and_or_idempotent t_size_t (integral (-4)) 7).
  reflexivity.
Defined.

(** ** Division *)

(** X8: the divisor of [/=] and [%=] at an integer type is the converted
    operand, so an operand that converts to zero is a division by zero,
    which no exception reports: a double below 1 in magnitude, or an integer
    that is a multiple of 2^bits. *)
Theorem zero_divisor_after_conversion (t : integer_type) (r : Boxed_Numeric) (p1 : Z)
    (Hzero : construct_pod (Integer t) r = Some 0) :
  assign_quotient_pod (Integer t) r p1 = Undefined
  /\ (isfloat r = false -> assign_remainder_pod t r p1 = Undefined).
Proof.
  split.
  - rewrite assign_quotient_pod_run, Hzero. reflexivity.
  - intros Hr. run_helpers. rewrite Hr.
    unfold construct_pod in Hzero. rewrite Hr in Hzero. cbn [of_int64] in Hzero.
    injection Hzero as ->. reflexivity.
Qed.

Lemma zero_divisor_after_conversion_witness :
  assign_quotient_pod (Integer t_int) (floating one_half) 7 = Undefined
  /\ assign_quotient_pod (Integer t_int) (integral 4294967296) 7 = Undefined
  /\ assign_remainder_pod t_int (integral 4294967296) 7 = Undefined.
Proof.
  split; [ | split ].
  - apply (proj1 (zero_divisor_after_conversion t_int (floating one_half) 7 eq_refl)).
  - apply (proj1 (zero_divisor_after_conversion t_int (integral 4294967296) 7 eq_refl)).
  - apply (proj2 (zero_divisor_after_conversion t_int (integral 4294967296) 7 eq_refl)).
    reflexivity.
Defined.

(** ** Shifts *)

Lemma shift_count_in_range t a :
  0 <= a -> a < bits (promoted t) -> in_range t a = true.
Proof.
  intros H0 H1. apply in_range_bounds.
  destruct t; cbv [min_value max_value is_signed bits promoted] in *; lia.
Qed.

Lemma shift_count_ok t a :
  0 <= a -> a < bits (promoted t) -> (0 <=? a) && (a <? bits (promoted t)) = true.
Proof.
  intros H0 H1. apply andb_true_iff. split; [ now apply Z.leb_le | now apply Z.ltb_lt ].
Qed.

Lemma shiftr_in_range t p a :
  in_range t p = true -> 0 <= a -> in_range t (Z.shiftr p a) = true.
Proof.
  rewrite !in_range_bounds. intros Hp Ha.
  rewrite Z.shiftr_div_pow2 by exact Ha.
  assert (Hc : 1 <= 2 ^ a) by (apply Z.lt_pred_le, Z.pow_pos_nonneg; lia).
  assert (Hmin : min_value t <= 0) by (destruct t; cbv; congruence).
  assert (Hmax : 0 <= max_value t) by (destruct t; cbv; congruence).
  generalize dependent (2 ^ a). intros c Hc.
  Z.div_mod_to_equations. nia.
Qed.

(** X9: shifting twice is shifting once by the sum of the counts, as long
    as the sum is below the width of the promoted type: for [<<=] whatever
    the target holds, for [>>=] on a target within range. *)
Theorem shifts_compose (t : integer_type) (a b : Z) (x : double) (p1 : Z)
    (Ha : 0 <= a) (Hb : 0 <= b) (Hab : a + b < bits (promoted t)) :
  (assign_left_shift_pod t (mk_Boxed_Numeric false a x);;
   assign_left_shift_pod t (mk_Boxed_Numeric false b x)) p1
  = assign_left_shift_pod t (mk_Boxed_Numeric false (a + b) x) p1
  /\ (in_range t p1 = true ->
      (assign_right_shift_pod t (mk_Boxed_Numeric false a x);;
       assign_right_shift_pod t (mk_Boxed_Numeric false b x)) p1
      = assign_right_shift_pod t (mk_Boxed_Numeric false (a + b) x) p1).
Proof.
  assert (Hwa : wrap t a = a) by (apply wrap_in_range, shift_count_in_range; lia).
  assert (Hwb : wrap t b = b) by (apply wrap_in_range, shift_count_in_range; lia).
  assert (Hwab : wrap t (a + b) = a + b) by (apply wrap_in_range, shift_count_in_range; lia).
  assert (Hca : (0 <=? a) && (a <? bits (promoted t)) = true) by (apply shift_count_ok; lia).
  assert (Hcb : (0 <=? b) && (b <? bits (promoted t)) = true) by (apply shift_count_ok; lia).
  assert (Hcab : (0 <=? a + b) && (a + b <? bits (promoted t)) = true)
    by (apply shift_count_ok; lia).
  split.
  - erewrite bind_Returns
      by (run_helpers; cbn; rewrite Hwa; unfold int_shl; rewrite Hca; reflexivity).
    run_helpers. cbn. rewrite Hwb, Hwab. unfold int_shl. rewrite Hcb, Hcab.
    rewrite !Z.shiftl_mul_pow2 by lia.
    rewrite wrap_mul_l, Z.pow_add_r, Z.mul_assoc by lia. reflexivity.
  - intros Hp1.
    erewrite bind_Returns
      by (run_helpers; cbn; rewrite Hwa; unfold int_shr; rewrite Hca; reflexivity).
    run_helpers. cbn. rewrite Hwb, Hwab. unfold int_shr. rewrite Hcb, Hcab.
    rewrite (wrap_in_range t (Z.shiftr p1 a)) by (apply shiftr_in_range; assumption).
    rewrite Z.shiftr_shiftr by lia. reflexivity.
Qed.

Lemma shifts_compose_witness :
  (assign_left_shift_pod t_char (mk_Boxed_Numeric false 3 one_half);;
   assign_left_shift_pod t_char (mk_Boxed_Numeric false 4 one_half)) 3
  = assign_left_shift_pod t_char (mk_Boxed_Numeric false (3 + 4) one_half) 3
  /\ (assign_right_shift_pod t_char (mk_Boxed_Numeric false 3 one_half);;
      assign_right_shift_pod t_char (mk_Boxed_Numeric false 4 one_half)) (-100)
     = assign_right_shift_pod t_char (mk_Boxed_Numeric false (3 + 4) one_half) (-100).
Proof.
  split.
  - apply (proj1 (shifts_compose t_char 3 4 one_half 3 ltac:(lia) ltac:(lia) ltac:(cbn; lia))).
  - apply (proj2 (shifts_compose t_char 3 4 one_half (-100)
                    ltac:(lia) ltac:(lia) ltac:(cbn; lia))).
    reflexivity.
Defined.

(** A count that is not below the width makes the shift undefined. *)
Example shift_by_the_width :
  assign_left_shift_pod t_int (integral 32) 1 = Undefined.
Proof. reflexivity. Qed.

(** * Further properties of the function-object utilities *)

Lemma boxed_cast_fails (bv : Boxed_Value) (σ : Store) (x : Data) :
  σ !! m_data bv = Some x ->
  (forall f, m_obj x <> obj_function f) ->
  boxed_cast_Const_Proxy_Function bv σ = Throws type_mismatch σ.
Proof.
  intros Hx Hf. unfold boxed_cast_Const_Proxy_Function.
  rewrite (bind_Returns _ _ _ _ _ (deref_run _ _ _ Hx)).
  destruct (m_obj x) as [ | | f | ]; try reflexivity. now destruct (Hf f).
Qed.

Lemma at_index_run {S A} (v : list A) (n : nat) (a : A) (s : S) :
  v !! n = Some a -> at_index v n s = Returns a s.
Proof. unfold at_index. intros ->. reflexivity. Qed.

(** X10: when [params[0]] holds something that is not a function,
    [bind_function] (on two parameters or more) and [call_exists] throw the
    error of the failed cast, and no Boxed_Value is made. *)
Theorem non_callable_is_refused
    (call_match : Proxy_Function_Base -> list Boxed_Value -> Store -> bool)
    (params : list Boxed_Value) (σ : Store) (p0 : Boxed_Value) (x : Data)
    (Hp0 : params !! 0%nat = Some p0)
    (Hx : σ !! m_data p0 = Some x)
    (Hnot : forall f, m_obj x <> obj_function f) :
  ((2 <= length params)%nat -> Bootstrap.bind_function params σ = Throws type_mismatch σ)
  /\ Bootstrap.call_exists call_match params σ = Throws type_mismatch σ.
Proof.
  split.
  - intros Hlen. unfold Bootstrap.bind_function.
    rewrite (proj2 (Nat.ltb_ge _ _) Hlen).
    rewrite (bind_Returns _ _ _ _ _ (at_index_run _ _ _ _ Hp0)).
    apply bind_Throws, (boxed_cast_fails _ _ _ Hx Hnot).
  - unfold Bootstrap.call_exists.
    destruct params as [|q rest]; [ discriminate | ]. cbn [length Nat.ltb Nat.leb].
    rewrite (bind_Returns _ _ _ _ _ (at_index_run _ _ _ _ Hp0)).
    apply bind_Throws, (boxed_cast_fails _ _ _ Hx Hnot).
Qed.

Lemma non_callable_is_refused_witness :
  Bootstrap.bind_function [cell 2; cell 1] sample_store = Throws type_mismatch sample_store
  /\ Bootstrap.call_exists unary_match [cell 2; cell 1] sample_store
     = Throws type_mismatch sample_store.
Proof.
  pose proof (non_callable_is_refused unary_match [cell 2; cell 1] sample_store (cell 2)
                (Data_of_bool true) eq_refl eq_refl ltac:(discriminate)) as [Hbind Hcall].
  split.
  - apply Hbind. cbn. lia.
  - exact Hcall.
Defined.

(** The success path of [bind_function] and of [call_exists]. *)
Lemma bind_function_run (params : list Boxed_Value) (σ : Store) p0 x f :
  (2 <= length params)%nat ->
  params !! 0%nat = Some p0 ->
  σ !! m_data p0 = Some x ->
  m_obj x = obj_function f ->
  Bootstrap.bind_function params σ
  = Returns (mk_Boxed_Value (fresh (dom σ)))
      (<[fresh (dom σ) := Data_of_shared_ptr (Proxy_Function_Type true)
                            (Bound_Function f (drop 1 params))]> σ).
Proof.
  intros Hlen Hp0 Hx Hf. unfold Bootstrap.bind_function.
  rewrite (proj2 (Nat.ltb_ge _ _) Hlen).
  rewrite (bind_Returns _ _ _ _ _ (at_index_run _ _ _ _ Hp0)).
  rewrite (bind_Returns _ _ _ _ _ (boxed_cast_run _ _ _ _ Hx Hf)).
  reflexivity.
Qed.

Lemma call_exists_run call_match (params : list Boxed_Value) (σ : Store) p0 x f :
  params !! 0%nat = Some p0 ->
  σ !! m_data p0 = Some x ->
  m_obj x = obj_function f ->
  Bootstrap.call_exists call_match params σ
  = Returns (mk_Boxed_Value (fresh (dom σ)))
      (<[fresh (dom σ) := Data_of_bool (call_match f (drop 1 params) σ)]> σ).
Proof.
  intros Hp0 Hx Hf. unfold Bootstrap.call_exists.
  destruct params as [|q rest]; [ discriminate | ]. cbn [length Nat.ltb Nat.leb].
  rewrite (bind_Returns _ _ _ _ _ (at_index_run _ _ _ _ Hp0)).
  rewrite (bind_Returns _ _ _ _ _ (boxed_cast_run _ _ _ _ Hx Hf)).
  reflexivity.
Qed.

(** X11: what [bind_function] returns is itself a callable value: cast back
    it is the Bound function; it has no guard; given as first parameter to
    [call_exists] it is the Bound function that is tested against the
    remaining parameters; and the cells that existed before are untouched. *)
Theorem bound_function_is_callable
    (call_match : Proxy_Function_Base -> list Boxed_Value -> Store -> bool)
    (params args : list Boxed_Value) (σ : Store) (p0 : Boxed_Value) (x : Data)
    (f : Proxy_Function_Base)
    (Hlen : (2 <= length params)%nat)
    (Hp0 : params !! 0%nat = Some p0)
    (Hx : σ !! m_data p0 = Some x)
    (Hf : m_obj x = obj_function f) :
  exists (b : Boxed_Value) (σ' : Store),
    Bootstrap.bind_function params σ = Returns b σ'
    /\ boxed_cast_Const_Proxy_Function b σ' = Returns (Bound_Function f (drop 1 params)) σ'
    /\ Bootstrap.has_guard (Bound_Function f (drop 1 params)) = false
    /\ (forall l y, σ !! l = Some y -> σ' !! l = Some y)
    /\ exists c : Boxed_Value,
         σ' !! m_data c = None
         /\ Bootstrap.call_exists call_match (b :: args) σ'
            = Returns c
                (<[m_data c := Data_of_bool
                                 (call_match (Bound_Function f (drop 1 params)) args σ')]> σ').
Proof.
  eexists _, _. split; [ apply (bind_function_run params σ p0 x f Hlen Hp0 Hx Hf) | ].
  set (g := Bound_Function f (drop 1 params)).
  set (σ' := <[fresh (dom σ) := Data_of_shared_ptr (Proxy_Function_Type true) g]> σ).
  assert (Hb : σ' !! m_data (mk_Boxed_Value (fresh (dom σ)))
               = Some (Data_of_shared_ptr (Proxy_Function_Type true) g))
    by apply lookup_insert_eq.
  repeat split.
  - exact (boxed_cast_run _ _ _ g Hb eq_refl).
  - intros l y Hl. unfold σ'. rewrite lookup_insert_ne; [ exact Hl | ].
    intros <-. rewrite fresh_cell in Hl. discriminate.
  - exists (mk_Boxed_Value (fresh (dom σ'))). split; [ apply fresh_cell | ].
    exact (call_exists_run call_match (_ :: args) σ' _ _ g eq_refl Hb eq_refl).
Qed.

Lemma bound_function_is_callable_witness :
  exists (b : Boxed_Value) (σ' : Store),
    Bootstrap.bind_function [cell 1; cell 2] sample_store = Returns b σ'
    /\ boxed_cast_Const_Proxy_Function b σ' = Returns (Bound_Function sample_function [cell 2]) σ'
    /\ Bootstrap.has_guard (Bound_Function sample_function [cell 2]) = false
    /\ (forall l y, sample_store !! l = Some y -> σ' !! l = Some y)
    /\ exists c : Boxed_Value,
         σ' !! m_data c = None
         /\ Bootstrap.call_exists unary_match [b; cell 2] σ'
            = Returns c
                (<[m_data c := Data_of_bool
                                 (unary_match (Bound_Function sample_function [cell 2])
                                    [cell 2] σ')]> σ').
Proof.
  apply (bound_function_is_callable unary_match [cell 1; cell 2] [cell 2] sample_store (cell 1)
           (Data_of_shared_ptr (Proxy_Function_Type true) sample_function) sample_function).
  - cbn. lia.
  - reflexivity.
  - reflexivity.
  - reflexivity.
Defined.

(** ** Assignment, once and again *)

Lemma unknown_assign_run (lhs rhs : Boxed_Value) (σ : Store) (l r : Data) :
  σ !! m_data lhs = Some l ->
  σ !! m_data rhs = Some r ->
  Bootstrap.unknown_assign lhs rhs σ =
    if Type_Info.is_undef (m_type_info l)
    then Returns lhs (<[m_data lhs := r]> σ)
    else Throws (bad_boxed_cast "boxed_value has a set type already") σ.
Proof.
  intros Hl Hr. unfold Bootstrap.unknown_assign.
  rewrite (bind_Returns _ _ _ _ _ (is_undef_run _ _ _ Hl)).
  destruct (Type_Info.is_undef (m_type_info l)) eqn:Hundef; [ | reflexivity ].
  apply (assign_run lhs rhs σ l r Hl Hr).
  rewrite Hundef. reflexivity.
Qed.

(** X12: the generic ["="] binds a variable once.  After [unknown_assign]
    gave an undefined [lhs] the data of a [rhs] that has a type, [lhs] holds
    that data, [rhs] and the other cells are as before, and every further
    [unknown_assign] to [lhs] throws. *)
Theorem unknown_assign_binds_once (lhs rhs : Boxed_Value) (σ : Store) (l r : Data)
    (Hl : σ !! m_data lhs = Some l)
    (Hr : σ !! m_data rhs = Some r)
    (Hundef : Type_Info.is_undef (m_type_info l) = true)
    (Htyped : Type_Info.is_undef (m_type_info r) = false) :
  exists σ' : Store,
    Bootstrap.unknown_assign lhs rhs σ = Returns lhs σ'
    /\ σ' !! m_data lhs = Some r
    /\ (forall k, k <> m_data lhs -> σ' !! k = σ !! k)
    /\ (forall (rhs' : Boxed_Value) (r' : Data),
          σ' !! m_data rhs' = Some r' ->
          Bootstrap.unknown_assign lhs rhs' σ'
          = Throws (bad_boxed_cast "boxed_value has a set type already") σ').
Proof.
  exists (<[m_data lhs := r]> σ). repeat split.
  - rewrite (unknown_assign_run lhs rhs σ l r Hl Hr), Hundef. reflexivity.
  - apply lookup_insert_eq.
  - intros k Hk. apply lookup_insert_ne. congruence.
  - intros rhs' r' Hr'.
    rewrite (unknown_assign_run lhs rhs' _ r r' (lookup_insert_eq _ _ _) Hr'), Htyped.
    reflexivity.
Qed.

Lemma unknown_assign_binds_once_witness :
  exists σ' : Store,
    Bootstrap.unknown_assign (cell 4) (cell 2) sample_store = Returns (cell 4) σ'
    /\ σ' !! m_data (cell 4) = Some (Data_of_bool true)
    /\ (forall k, k <> m_data (cell 4) -> σ' !! k = sample_store !! k)
    /\ (forall (rhs' : Boxed_Value) (r' : Data),
          σ' !! m_data rhs' = Some r' ->
          Bootstrap.unknown_assign (cell 4) rhs' σ'
          = Throws (bad_boxed_cast "boxed_value has a set type already") σ').
Proof.
  apply (unknown_assign_binds_once (cell 4) (cell 2) sample_store undefined_Data
           (Data_of_bool true)).
  - reflexivity.
  - reflexivity.
  - reflexivity.
  - reflexivity.
Defined.

Lemma ptr_assign_run (Type_ : Type_Info.t) (lhs : Boxed_Value) (rhs : Proxy_Function_Base)
    (σ : Store) (l : Data) :
  σ !! m_data lhs = Some l ->
  ptr_assign Type_ lhs rhs σ =
    if Type_Info.is_undef (m_type_info l)
       || (negb (Type_Info.is_const (m_type_info l))
           && Type_Info.bare_equal (m_type_info l) Type_)
    then Returns lhs (<[m_data lhs := Data_of_shared_ptr Type_ rhs]> σ)
    else Throws (bad_boxed_cast "type mismatch in pointer assignment") σ.
Proof.
  intros Hl. unfold ptr_assign.
  rewrite (bind_Returns _ _ _ _ _ (is_undef_run _ _ _ Hl)).
  rewrite (bind_Returns _ _ _ _ _ (get_type_info_run _ _ _ Hl)).
  destruct (Type_Info.is_undef (m_type_info l)
            || (negb (Type_Info.is_const (m_type_info l))
                && Type_Info.bare_equal (m_type_info l) Type_)) eqn:Hok;
    [ | reflexivity ].
  pose proof (fresh_cell σ) as Hfresh.
  assert (Hne : fresh (dom σ) <> m_data lhs) by congruence.
  unfold bind at 1. unfold new_Boxed_Value.
  erewrite bind_Returns.
  2:{ apply (assign_run lhs _ _ l (Data_of_shared_ptr Type_ rhs)).
      - rewrite lookup_insert_ne by exact Hne. exact Hl.
      - apply lookup_insert_eq.
      - cbn [m_type_info Data_of_shared_ptr].
        rewrite (andb_comm (Type_Info.bare_equal _ _)). exact Hok. }
  unfold destroy, bind, ret. cbn [m_data]. f_equal.
  rewrite delete_insert_ne by exact Hne.
  rewrite delete_insert_eq.
  rewrite delete_id by exact Hfresh.
  reflexivity.
Qed.

Lemma bare_equal_refl (ti : Type_Info.t) : Type_Info.bare_equal ti ti = true.
Proof.
  unfold Type_Info.bare_equal. rewrite String.eqb_refl.
  destruct (Type_Info.m_is_pointer ti); reflexivity.
Qed.

(** X13: a variable bound by [ptr_assign<Type>] reads back as the function
    it was given, and can be bound again by [ptr_assign<Type>] exactly when
    [Type] is not const; the generic ["="] refuses it either way. *)
Theorem ptr_assign_rebinds (Type_ : Type_Info.t) (lhs : Boxed_Value)
    (rhs rhs' : Proxy_Function_Base) (σ : Store) (l : Data)
    (Hl : σ !! m_data lhs = Some l)
    (Hok : Type_Info.is_undef (m_type_info l)
           || (negb (Type_Info.is_const (m_type_info l))
               && Type_Info.bare_equal (m_type_info l) Type_) = true)
    (Htyped : Type_Info.is_undef Type_ = false) :
  exists σ' : Store,
    ptr_assign Type_ lhs rhs σ = Returns lhs σ'
    /\ boxed_cast_Const_Proxy_Function lhs σ' = Returns rhs σ'
    /\ ptr_assign Type_ lhs rhs' σ'
       = (if Type_Info.is_const Type_
          then Throws (bad_boxed_cast "type mismatch in pointer assignment") σ'
          else Returns lhs (<[m_data lhs := Data_of_shared_ptr Type_ rhs']> σ'))
    /\ (forall (other : Boxed_Value) (o : Data),
          σ' !! m_data other = Some o ->
          Bootstrap.unknown_assign lhs other σ'
          = Throws (bad_boxed_cast "boxed_value has a set type already") σ').
Proof.
  exists (<[m_data lhs := Data_of_shared_ptr Type_ rhs]> σ).
  assert (Hnew : (<[m_data lhs := Data_of_shared_ptr Type_ rhs]> σ) !! m_data lhs
                 = Some (Data_of_shared_ptr Type_ rhs)) by apply lookup_insert_eq.
  repeat split.
  - rewrite (ptr_assign_run Type_ lhs rhs σ l Hl), Hok. reflexivity.
  - exact (boxed_cast_run _ _ _ rhs Hnew eq_refl).
  - rewrite (ptr_assign_run Type_ lhs rhs' _ _ Hnew).
    cbn [m_type_info Data_of_shared_ptr]. rewrite Htyped, bare_equal_refl.
    destruct (Type_Info.is_const Type_); reflexivity.
  - intros other o Ho.
    rewrite (unknown_assign_run lhs other _ _ o Hnew Ho).
    cbn [m_type_info Data_of_shared_ptr]. rewrite Htyped. reflexivity.
Qed.

Lemma ptr_assign_rebinds_witness :
  (exists σ' : Store,
     ptr_assign (Proxy_Function_Type false) (cell 4) sample_function sample_store
     = Returns (cell 4) σ'
     /\ boxed_cast_Const_Proxy_Function (cell 4) σ' = Returns sample_function σ'
     /\ ptr_assign (Proxy_Function_Type false) (cell 4) sample_guarded σ'
        = Returns (cell 4)
            (<[4%positive := Data_of_shared_ptr (Proxy_Function_Type false) sample_guarded]> σ'))
  /\ (exists σ' : Store,
        ptr_assign (Proxy_Function_Type true) (cell 4) sample_function sample_store
        = Returns (cell 4) σ'
        /\ ptr_assign (Proxy_Function_Type true) (cell 4) sample_guarded σ'
           = Throws (bad_boxed_cast "type mismatch in pointer assignment") σ').
Proof.
  split.
  - destruct (ptr_assign_rebinds (Proxy_Function_Type false) (cell 4) sample_function
                sample_guarded sample_store undefined_Data eq_refl eq_refl eq_refl)
      as (σ' & H1 & H2 & H3 & _).
    exists σ'. repeat split; assumption.
  - destruct (ptr_assign_rebinds (Proxy_Function_Type true) (cell 4) sample_function
                sample_guarded sample_store undefined_Data eq_refl eq_refl eq_refl)
      as (σ' & H1 & _ & H3 & _).
    exists σ'. repeat split; assumption.
Defined.

(** ** Guards *)

(** X14: [has_guard] is the precondition of [get_guard]: [get_guard]
    returns a guard exactly when [has_guard] is true, and throws the
    guard-absent error exactly when it is false. *)
Theorem has_guard_decides_get_guard (pf : Proxy_Function_Base) (S : Type) (s : S) :
  (Bootstrap.has_guard pf = true <-> exists g, @Bootstrap.get_guard S pf s = Returns g s)
  /\ (Bootstrap.has_guard pf = false <-> @Bootstrap.get_guard S pf s = Throws guard_absent s).
Proof.
  unfold Bootstrap.has_guard, Bootstrap.get_guard.
  destruct (dynamic_pointer_cast_Dynamic pf) as [dyn|].
  - destruct (Dynamic_get_guard dyn) as [g|]; cbn; split; split;
      try discriminate; try reflexivity.
    + intros _. exists g. reflexivity.
    + intros (g & Hg). discriminate.
  - cbn. split; split; try discriminate; try reflexivity.
    intros (g & Hg). discriminate.
Qed.

Lemma has_guard_decides_get_guard_witness :
  (exists g, @Bootstrap.get_guard unit sample_guarded tt = Returns g tt)
  /\ @Bootstrap.get_guard unit (OverloadSet [sample_guarded]) tt = Throws guard_absent tt.
Proof.
  split.
  - apply (proj1 (proj1 (has_guard_decides_get_guard sample_guarded unit tt))). reflexivity.
  - apply (proj1 (proj2 (has_guard_decides_get_guard (OverloadSet [sample_guarded]) unit tt))).
    reflexivity.
Defined.

(** ** Boxed vectors *)

Section Boxed_vectors_facts.

Context {A : Type} (const_var : A -> Data).

Lemma push_back_all_run (v : list A) :
  forall (vbv : list Boxed_Value) (σ : Store),
  exists (new : list Boxed_Value) (σ' : Store),
    push_back_all const_var v vbv σ = Returns (vbv ++ new)%list σ'
    /\ Forall2 (fun x bv => σ !! m_data bv = None /\ σ' !! m_data bv = Some (const_var x)) v new
    /\ NoDup new
    /\ σ ⊆ σ'.
Proof.
  induction v as [|x rest IH]; intros vbv σ.
  - exists [], σ. cbn. rewrite app_nil_r.
    split; [ reflexivity | ]. split; [ apply Forall2_nil_2 | ].
    split; [ apply NoDup_nil_2 | reflexivity ].
  - cbn [push_back_all].
    set (bv := mk_Boxed_Value (fresh (dom σ))).
    set (σ1 := <[fresh (dom σ) := const_var x]> σ).
    destruct (IH (vbv ++ [bv])%list σ1) as (new & σ' & Hrun & Hall & Hdup & Hsub).
    assert (Hsub1 : σ ⊆ σ1) by apply insert_subseteq, fresh_cell.
    assert (Hbv : σ1 !! m_data bv = Some (const_var x)) by apply lookup_insert_eq.
    exists (bv :: new), σ'. repeat split.
    + unfold bind, new_Boxed_Value. fold bv σ1. rewrite Hrun, <- app_assoc. reflexivity.
    + constructor.
      * split; [ apply fresh_cell | exact (lookup_weaken _ _ _ _ Hbv Hsub) ].
      * eapply Forall2_impl; [ exact Hall | ].
        intros y c [Hnone Hsome]. split; [ | exact Hsome ].
        destruct (σ !! m_data c) as [z|] eqn:Hc; [ | reflexivity ].
        rewrite (lookup_weaken _ _ _ _ Hc Hsub1) in Hnone. discriminate.
    + constructor; [ | exact Hdup ].
      intros Hin.
      destruct (proj1 (list_elem_of_lookup _ _) Hin) as [k Hk].
      destruct (Forall2_lookup_r _ _ _ _ _ Hall Hk) as (y & _ & Hnone & _).
      rewrite Hbv in Hnone. discriminate.
    + etransitivity; eassumption.
Qed.

End Boxed_vectors_facts.

(** X15: [do_return_boxed_value_vector] boxes the elements of the vector
    that the member function returns, one new Boxed_Value each, in the same
    order: the result has the length of the vector, its k-th entry is a new
    cell holding [const_var] of the k-th element, the entries are distinct,
    and the cells that existed before are untouched. *)
Theorem do_return_boxed_value_vector_spec {A : Type} (const_var : A -> Data)
    (f : Proxy_Function_Base -> list A) (b : Proxy_Function_Base) (σ : Store) :
  exists (vbv : list Boxed_Value) (σ' : Store),
    do_return_boxed_value_vector const_var f b σ = Returns vbv σ'
    /\ length vbv = length (f b)
    /\ (forall (k : nat) (x : A),
          f b !! k = Some x ->
          exists bv : Boxed_Value,
            vbv !! k = Some bv
            /\ σ !! m_data bv = None
            /\ σ' !! m_data bv = Some (const_var x))
    /\ NoDup vbv
    /\ (forall l y, σ !! l = Some y -> σ' !! l = Some y).
Proof.
  unfold do_return_boxed_value_vector.
  destruct (push_back_all_run const_var (f b) [] σ) as (new & σ' & Hrun & Hall & Hdup & Hsub).
  exists new, σ'. cbn [app] in Hrun. repeat split.
  - exact Hrun.
  - symmetry. exact (Forall2_length _ _ _ Hall).
  - intros k x Hk.
    destruct (Forall2_lookup_l _ _ _ _ _ Hall Hk) as (bv & Hbv & Hnone & Hsome).
    exists bv. repeat split; assumption.
  - exact Hdup.
  - intros l y Hl. exact (lookup_weaken _ _ _ _ Hl Hsub).
Qed.

Lemma do_return_boxed_value_vector_spec_witness :
  exists (vbv : list Boxed_Value) (σ' : Store) (bv : Boxed_Value),
    do_return_boxed_value_vector sample_const_var sample_contained
      (OverloadSet [sample_function; sample_guarded]) sample_store = Returns vbv σ'
    /\ length vbv = 2%nat
    /\ vbv !! 1%nat = Some bv
    /\ sample_store !! m_data bv = None
    /\ σ' !! m_data bv = Some (sample_const_var sample_guarded).
Proof.
  destruct (do_return_boxed_value_vector_spec sample_const_var sample_contained
              (OverloadSet [sample_function; sample_guarded]) sample_store)
    as (vbv & σ' & Hrun & Hlen & Hnth & _ & _).
  destruct (Hnth 1%nat sample_guarded eq_refl) as (bv & Hbv & Hnone & Hsome).
  exists vbv, σ', bv. repeat split; assumption.
Defined.

(** An empty vector gives an empty result and makes no cell. *)
Example do_return_boxed_value_vector_empty :
  do_return_boxed_value_vector sample_const_var sample_contained sample_function sample_store
  = Returns [] sample_store.
Proof. reflexivity. Qed.
